(** * WelcomeBotGruppo: the registration bot of [bot.py]

    A shallow embedding of [bot.py] and the properties of its three parts:
    the email validator [is_valid_email], the Google Sheets adapter
    [save_to_google_sheet], and the conversation handlers [start],
    [get_name], [get_email] and [cancel] as the [ConversationHandler] of
    [main] dispatches them.

    Python strings are modelled as [string] (the UTF-8 bytes of the text):
    every class of the email pattern and the line feed are ASCII, so a
    character outside ASCII behaves as its bytes do, it is in no class.

    Two things [bot.py] leaves to its libraries are modelled as they
    are there. What [sheet.get('A1')] returns for an empty cell depends
    on the gspread that is installed, and the test of line 63 with it:
    the version is part of the environment of a run. And [%Y] is what
    the C library makes of it, the year without padding. *)

From Stdlib Require Import Ascii String List Bool Arith NArith ZArith Lia.
From stdpp Require Import base option gmap strings list fin_maps.
Import ListNotations.

Local Open Scope string_scope.
Local Open Scope list_scope.
Local Open Scope nat_scope.

(** ** Regular expressions, as far as the pattern of [is_valid_email] goes *)

Module Re.

(** A member of a bracket class: a range [a-z] or a single character. *)
Inductive class_item :=
| Range (lo hi : ascii)
| Single (c : ascii).

Definition char_class := list class_item.

Definition in_item (c : ascii) (i : class_item) : bool :=
  match i with
  | Range lo hi =>
      (nat_of_ascii lo <=? nat_of_ascii c) && (nat_of_ascii c <=? nat_of_ascii hi)
  | Single d => Ascii.eqb c d
  end.

Definition in_class (cls : char_class) (c : ascii) : bool :=
  existsb (in_item c) cls.

(** The pattern is a sequence of these. [Rep cls n] is [[cls]{n,}]
    (so [[cls]+] is [Rep cls 1]), a greedy repeat without upper bound. *)
Inductive item :=
| Bol                                  (* ^ *)
| Eol                                  (* $ *)
| Lit (c : ascii)                      (* a literal character, or \. *)
| Rep (cls : char_class) (min : nat).

Definition regex := list item.

(** [$] without [re.MULTILINE]: at the end of the string, or just before
    a line feed that is the last character of the string. *)
Definition at_end (rest : list ascii) : bool :=
  match rest with
  | [] => true
  | [c] => Ascii.eqb c "010"%char
  | _ => false
  end.

(** The greedy repeat of the backtracking matcher: take one more
    character of the class while there is one, and when what follows
    fails give the last one back, never going under [min]. [k] is the
    rest of the pattern, [pos] the offset in the subject. *)
Fixpoint match_rep (cls : char_class) (min : nat)
    (k : nat -> list ascii -> bool) (pos : nat) (s : list ascii) : bool :=
  match s with
  | c :: s' =>
      if in_class cls c
      then match_rep cls (Nat.pred min) k (S pos) s' || ((min =? 0) && k pos s)
      else (min =? 0) && k pos s
  | [] => (min =? 0) && k pos s
  end.

Fixpoint match_here (r : regex) (pos : nat) (s : list ascii) : bool :=
  match r with
  | [] => true
  | Bol :: r' => (pos =? 0) && match_here r' pos s
  | Eol :: r' => at_end s && match_here r' pos s
  | Lit c :: r' =>
      match s with
      | d :: s' => Ascii.eqb d c && match_here r' (S pos) s'
      | [] => false
      end
  | Rep cls min :: r' => match_rep cls min (match_here r') pos s
  end.

(** [re.match(r, s) is not None]: a match that starts at offset 0; it
    need not reach the end of [s]. *)
Definition re_match (r : regex) (s : string) : bool :=
  match_here r 0 (list_ascii_of_string s).

End Re.

Import Re.

(** ** The email validator *)

(** [[a-zA-Z0-9._%+-]] *)
Definition local_class : char_class :=
  [Range "a" "z"; Range "A" "Z"; Range "0" "9";
   Single "."; Single "_"; Single "%"; Single "+"; Single "-"]%char.

(** [[a-zA-Z0-9.-]] *)
Definition domain_class : char_class :=
  [Range "a" "z"; Range "A" "Z"; Range "0" "9"; Single "."; Single "-"]%char.

(** [[a-zA-Z]] *)
Definition alpha_class : char_class :=
  [Range "a" "z"; Range "A" "Z"]%char.

(** [r'^[a-zA-Z0-9._%+-]+@[a-zA-Z0-9.-]+\.[a-zA-Z]{2,}$'] *)
Definition email_regex : regex :=
  [Bol; Rep local_class 1; Lit "@"; Rep domain_class 1; Lit ".";
   Rep alpha_class 2; Eol]%char.

Definition is_valid_email (email : string) : bool :=
  re_match email_regex email.

(** ** Python values, exceptions and the monad of the effectful code *)

(** The values that end up in a dictionary or in a cell of the sheet. *)
Inductive pyval :=
| VStr (s : string)
| VInt (n : Z).

#[global] Instance pyval_eq_dec : EqDecision pyval.
Proof. solve_decision. Defined.

(** The exceptions the adapter can meet, all of them subclasses of
    [Exception]. [KeyboardInterrupt] and [SystemExit] stand outside that
    hierarchy; they are signals to the process, not outcomes of a call to
    the store, and are not modelled. *)
Inductive exc :=
| SpreadsheetNotFound
| APIError (msg : string)
| KeyError (key : string)
| OtherException (msg : string).

Inductive result (A : Type) :=
| Ok (a : A)
| Raise (e : exc).
Arguments Ok {A} a.
Arguments Raise {A} e.

(** State passing with exceptions: what was done before a [raise] stays
    done. *)
Definition M (S A : Type) : Type := S -> result A * S.

Definition ret {S A} (a : A) : M S A := fun s => (Ok a, s).
Definition raise {S A} (e : exc) : M S A := fun s => (Raise e, s).
Definition bind {S A B} (m : M S A) (f : A -> M S B) : M S B :=
  fun s =>
    match m s with
    | (Ok a, s') => f a s'
    | (Raise e, s') => (Raise e, s')
    end.
Definition modify {S} (f : S -> S) : M S unit := fun s => (Ok tt, f s).
Definition gets {S A} (f : S -> A) : M S A := fun s => (Ok (f s), s).

Notation "x <- m ;; k" := (bind m (fun x => k))
  (at level 100, m at next level, right associativity).
Notation "m ;;; k" := (bind m (fun _ => k))
  (at level 100, right associativity).

(** An [except] clause: the class it names and its body. *)
Inductive exc_class :=
| CSpreadsheetNotFound
| CAPIError
| CException.

Definition isinstance (e : exc) (c : exc_class) : bool :=
  match c, e with
  | CSpreadsheetNotFound, SpreadsheetNotFound => true
  | CAPIError, APIError _ => true
  | CException, _ => true
  | _, _ => false
  end.

(** The first clause whose class the exception is an instance of runs;
    with none the exception goes on to the caller. *)
Fixpoint handle {S A} (clauses : list (exc_class * (exc -> M S A))) (e : exc) : M S A :=
  match clauses with
  | [] => raise e
  | (c, h) :: rest => if isinstance e c then h e else handle rest e
  end.

Definition try_except {S A} (body : M S A)
    (clauses : list (exc_class * (exc -> M S A))) : M S A :=
  fun s =>
    match body s with
    | (Ok a, s') => (Ok a, s')
    | (Raise e, s') => handle clauses e s'
    end.

(** [d[key]] on a dictionary. *)
Definition getitem {S} (d : gmap string pyval) (key : string) : M S pyval :=
  match d !! key with
  | Some v => ret v
  | None => raise (KeyError key)
  end.

(** ** The clock and [strftime] *)

(** The reading of [datetime.now()], the local time of the process. *)
Record datetime := {
  year : N; month : N; day : N;
  hour : N; minute : N; second : N
}.

(** The ranges the [datetime] class keeps its fields in. *)
Definition valid_datetime (d : datetime) : Prop :=
  (1 <= year d <= 9999 /\ 1 <= month d <= 12 /\ 1 <= day d <= 31 /\
   hour d <= 23 /\ minute d <= 59 /\ second d <= 59)%N.

Definition digit_char (n : N) : ascii := ascii_of_N (48 + n mod 10).

(** A number as [w] decimal digits, padded with zeros. *)
Fixpoint zero_pad (w : nat) (n : N) : list ascii :=
  match w with
  | 0 => []
  | S w' => zero_pad w' (n / 10) ++ [digit_char n]
  end.

(** [%Y] as the C library under CPython renders it on Linux: the year
    in decimal without padding, so four digits from the year 1000 on and
    fewer before. *)
Definition year_width (y : N) : nat :=
  if (y <? 10)%N then 1
  else if (y <? 100)%N then 2
  else if (y <? 1000)%N then 3
  else 4.

Definition year_digits (y : N) : list ascii := zero_pad (year_width y) y.

(** [-%m-%d %H:%M:%S], each field as two digits. *)
Definition after_year (d : datetime) : list ascii :=
  ["-"%char] ++ zero_pad 2 (month d) ++ ["-"%char] ++
  zero_pad 2 (day d) ++ [" "%char] ++ zero_pad 2 (hour d) ++ [":"%char] ++
  zero_pad 2 (minute d) ++ [":"%char] ++ zero_pad 2 (second d).

(** [d.strftime("%Y-%m-%d %H:%M:%S")] *)
Definition strftime (d : datetime) : string :=
  string_of_list_ascii (year_digits (year d) ++ after_year d).

(** ** The Google sheet and the calls of gspread *)

Abbreviation row := (list pyval) (only parsing).

(** The first worksheet: its rows down to the last one in use.
    [append_row] writes under them. *)
Abbreviation worksheet := (list row) (only parsing).

(** What a cell holds; an empty text is an empty cell. *)
Definition cell_value (v : pyval) : option pyval :=
  match v with
  | VStr "" => None
  | _ => Some v
  end.

Definition cell_A1 (sh : worksheet) : option pyval :=
  match sh with
  | (v :: _) :: _ => cell_value v
  | _ => None
  end.

(** The gspread that is installed: [bot.py] pins no version, and the
    two lines differ in what [get] returns for an empty range. *)
Inductive gspread_version :=
| gspread_5     (* before version 6: an empty list *)
| gspread_6.    (* from version 6 on: a list with one empty row *)

#[global] Instance gspread_version_eq_dec : EqDecision gspread_version.
Proof. solve_decision. Defined.

(** The library and the outcome of each of its calls in one run of the
    adapter: [None] when the call returns, [Some e] when it raises [e].
    The two [append_row] calls are told apart by their line in [bot.py].
    A call that raises leaves the sheet as it was. *)
Record store_env := {
  gspread : gspread_version;
  fault_credentials : option exc;      (* Credentials.from_service_account_file *)
  fault_authorize : option exc;        (* gspread.authorize *)
  fault_open_by_key : option exc;      (* client.open_by_key *)
  fault_sheet1 : option exc;           (* .sheet1 *)
  fault_get : option exc;              (* sheet.get('A1') *)
  fault_append_headers : option exc;   (* sheet.append_row(headers) *)
  fault_append_new_row : option exc;   (* sheet.append_row(new_row) *)
  now : datetime                       (* datetime.now() *)
}.

Definition call {S} (fault : option exc) : M S unit :=
  match fault with
  | None => ret tt
  | Some e => raise e
  end.

(** What [get] returns for a range without values. *)
Definition empty_range (lib : gspread_version) : list (list pyval) :=
  match lib with
  | gspread_5 => []
  | gspread_6 => [[]]
  end.

(** [sheet.get('A1')]: the values of the range. *)
Definition sheet_get_A1 (lib : gspread_version) (fault : option exc)
    : M worksheet (list (list pyval)) :=
  call fault ;;;
  a1 <- gets cell_A1 ;;
  ret (match a1 with Some v => [[v]] | None => empty_range lib end).

Definition append_row (fault : option exc) (values : row) : M worksheet unit :=
  call fault ;;;
  modify (fun sh => sh ++ [values]).

(** Truth value of a list. *)
Definition truthy {A} (l : list A) : bool :=
  match l with
  | [] => false
  | _ => true
  end.

(** ** The adapter *)

Definition headers : row :=
  [VStr "Nome Cognome"; VStr "Email"; VStr "ID Telegram"; VStr "Data Registrazione"].

(** The body of the [try] of [save_to_google_sheet]. The calls to
    [logger] are left out: they change nothing that is observed here. *)
Definition save_body (env : store_env) (user_info : gmap string pyval)
    : M worksheet bool :=
  call (fault_credentials env) ;;;
  call (fault_authorize env) ;;;
  call (fault_open_by_key env) ;;;
  call (fault_sheet1 env) ;;;
  a1 <- sheet_get_A1 (gspread env) (fault_get env) ;;
  (if negb (truthy a1)
   then append_row (fault_append_headers env) headers
   else ret tt) ;;;
  name <- getitem user_info "name" ;;
  email <- getitem user_info "email" ;;
  user_id <- getitem user_info "user_id" ;;
  let new_row := [name; email; user_id; VStr (strftime (now env))] in
  append_row (fault_append_new_row env) new_row ;;;
  ret true.

Definition save_to_google_sheet (env : store_env) (user_info : gmap string pyval)
    : M worksheet bool :=
  try_except (save_body env user_info)
    [ (CSpreadsheetNotFound, fun _ => ret false);
      (CAPIError, fun _ => ret false);
      (CException, fun _ => ret false) ].

(** ** The conversation *)

(** The configuration read from the environment when the module loads. *)
Record config := {
  BOT_TOKEN : string;
  GROUP_INVITE_LINK : string;
  GOOGLE_SHEET_ID : string
}.

(** [GET_NAME, GET_EMAIL = range(2)] and [ConversationHandler.END]. *)
Inductive conv_state :=
| GET_NAME
| GET_EMAIL
| END.

#[global] Instance conv_state_eq_dec : EqDecision conv_state.
Proof. solve_decision. Defined.

Record user := { id : Z; first_name : string }.

(** What an update carries, as the filters of the handlers see it: a
    command sent to this bot, with the word after the slash as it was
    typed ([/start], [/Cancel], ...; a mention of the bot and what
    follows the word play no part), a text that is not a command, or
    anything else (among which a command sent to another bot). *)
Inductive content :=
| Command (name : string)
| Text (text : string)
| Other.

(** [str.lower()] on the word of a command, which is made of ASCII
    letters, digits and underscores. *)
Definition lower_char (c : ascii) : ascii :=
  if (65 <=? nat_of_ascii c) && (nat_of_ascii c <=? 90)
  then ascii_of_nat (nat_of_ascii c + 32)
  else c.

Fixpoint lower (s : string) : string :=
  match s with
  | EmptyString => EmptyString
  | String c s' => String (lower_char c) (lower s')
  end.

Record update := { effective_user : user; message : content }.

(** [update.message.text] *)
Definition message_text (u : update) : string :=
  match message u with
  | Text t => t
  | Command name => "/" +:+ name
  | Other => ""
  end.

Record button := { label : string; url : string }.

(** The replies a handler sends: [reply_html], with its keyboard when it
    has one, and [reply_text]. *)
Inductive reply :=
| reply_html (text : string) (reply_markup : option (list (list button)))
| reply_text (text : string).

(** What the handlers act on: the [user_data] dictionary of the context,
    the sheet, and the messages sent so far (oldest first). *)
Record world := {
  user_data : gmap string pyval;
  sheet : worksheet;
  sent : list reply
}.

Definition send (r : reply) : M world unit :=
  modify (fun w => {| user_data := user_data w; sheet := sheet w;
                      sent := sent w ++ [r] |}).

(** [context.user_data[key] = v] *)
Definition setitem_user_data (key : string) (v : pyval) : M world unit :=
  modify (fun w => {| user_data := <[key := v]> (user_data w); sheet := sheet w;
                      sent := sent w |}).

(** [context.user_data[key]] *)
Definition getitem_user_data (key : string) : M world pyval :=
  d <- gets user_data ;; getitem d key.

(** [context.user_data.clear()] *)
Definition clear_user_data : M world unit :=
  modify (fun w => {| user_data := ∅; sheet := sheet w; sent := sent w |}).

(** A computation on the sheet, run inside the world. *)
Definition on_sheet {A} (m : M worksheet A) : M world A :=
  fun w =>
    match m (sheet w) with
    | (r, sh') => (r, {| user_data := user_data w; sheet := sh'; sent := sent w |})
    end.

Definition nl : string := String "010"%char EmptyString.

Definition start_text (name : string) : string :=
  "👋 Ciao " +:+ name +:+ " e benvenuto/a!" +:+ nl +:+ nl +:+
  "Per accedere al nostro gruppo esclusivo, ho bisogno di qualche informazione." +:+
  nl +:+ nl +:+
  "Per favore, inviami il tuo <b>Nome e Cognome</b>.".

Definition ask_email_text : string :=
  "Grazie! Ora, per favore, inviami il tuo <b>indirizzo email</b>.".

Definition invalid_email_text : string :=
  "⚠️ L'indirizzo email non sembra valido. Per favore, controlla e riprova.".

Definition success_text : string :=
  "✅ Ottimo! Registrazione completata." +:+ nl +:+ nl +:+
  "Clicca sul pulsante qui sotto per accedere al gruppo esclusivo. Ti aspettiamo!".

Definition failure_text : string :=
  "❌ Si è verificato un problema tecnico durante la registrazione. " +:+
  "Il nostro team è stato notificato. Per favore, riprova più tardi.".

Definition cancel_text : string :=
  "Operazione annullata. Se cambi idea, scrivimi /start.".

Definition start (u : update) : M world conv_state :=
  let user := effective_user u in
  send (reply_html (start_text (first_name user)) None) ;;;
  ret GET_NAME.

Definition get_name (u : update) : M world conv_state :=
  setitem_user_data "name" (VStr (message_text u)) ;;;
  send (reply_html ask_email_text None) ;;;
  ret GET_EMAIL.

(** The dictionary [get_email] hands to the adapter. *)
Definition build_user_info (u : update) : M world (gmap string pyval) :=
  name <- getitem_user_data "name" ;;
  email <- getitem_user_data "email" ;;
  ret (<["name" := name]> (<["email" := email]>
        (<["user_id" := VInt (id (effective_user u))]> ∅))).

Definition get_email (cfg : config) (env : store_env) (u : update)
    : M world conv_state :=
  let user_email := message_text u in
  if negb (is_valid_email user_email)
  then
    send (reply_text invalid_email_text) ;;;
    ret GET_EMAIL
  else
    setitem_user_data "email" (VStr user_email) ;;;
    user_info <- build_user_info u ;;
    saved <- on_sheet (save_to_google_sheet env user_info) ;;
    (if saved : bool
     then
       let keyboard :=
         [[ {| label := "➡️ Clicca qui per entrare ⬅️";
               url := GROUP_INVITE_LINK cfg |} ]] in
       send (reply_html success_text (Some keyboard))
     else
       send (reply_text failure_text)) ;;;
    clear_user_data ;;;
    ret END.

Definition cancel (u : update) : M world conv_state :=
  send (reply_text cancel_text) ;;;
  clear_user_data ;;;
  ret END.

(** One conversation: its state in the [ConversationHandler] and the
    world of its handlers. *)
Record conversation := {
  state : conv_state;
  data : world
}.

(** A handler ran: its return value is the new state; when it raised the
    state stays, and what it had done stays done. *)
Definition run_handler (h : M world conv_state) (c : conversation) : conversation :=
  match h (data c) with
  | (Ok s, w) => {| state := s; data := w |}
  | (Raise _, w) => {| state := state c; data := w |}
  end.

(** The [ConversationHandler] of [main]: [/start] enters from outside a
    conversation; in [GET_NAME] and [GET_EMAIL] a text that is not a
    command goes to the handler of the state and [/cancel] to the
    fallback; every other update is ignored. A [CommandHandler] compares
    the word of the command in lower case. *)
Definition handle_update (cfg : config) (env : store_env) (u : update)
    (c : conversation) : conversation :=
  match state c, message u with
  | END, Command name =>
      if String.eqb (lower name) "start" then run_handler (start u) c else c
  | GET_NAME, Text _ => run_handler (get_name u) c
  | GET_EMAIL, Text _ => run_handler (get_email cfg env u) c
  | (GET_NAME | GET_EMAIL), Command name =>
      if String.eqb (lower name) "cancel" then run_handler (cancel u) c else c
  | _, _ => c
  end.

(** The updates of a conversation, each with the outcome of the store
    calls it would meet. *)
Definition run (cfg : config) (tr : list (store_env * update)) (c : conversation)
    : conversation :=
  fold_left (fun c eu => handle_update cfg (fst eu) (snd eu) c) tr c.

(** Before the first [/start]: no conversation, nothing collected,
    nothing sent. *)
Definition initial (sh : worksheet) : conversation :=
  {| state := END;
     data := {| user_data := ∅; sheet := sh; sent := [] |} |}.

(** ** What the specification says of a valid address

    The shape in the words of the specification: a local part of one or
    more of [[A-Za-z0-9._%+-]], an [@], a domain of one or more of
    [[A-Za-z0-9.-]], a dot, and a last label of two or more letters, the
    whole string and nothing else. *)

Definition between (lo hi c : ascii) : bool :=
  (nat_of_ascii lo <=? nat_of_ascii c) && (nat_of_ascii c <=? nat_of_ascii hi).

Definition is_alpha (c : ascii) : bool :=
  between "A" "Z" c || between "a" "z" c.

Definition is_digit (c : ascii) : bool := between "0" "9" c.

Definition one_of (chars : string) (c : ascii) : bool :=
  existsb (Ascii.eqb c) (list_ascii_of_string chars).

Definition local_char (c : ascii) : bool :=
  is_alpha c || is_digit c || one_of "._%+-" c.

Definition domain_char (c : ascii) : bool :=
  is_alpha c || is_digit c || one_of ".-" c.

Definition email_shape_chars (s : list ascii) : Prop :=
  exists l d t : list ascii,
    s = l ++ "@"%char :: d ++ "."%char :: t /\
    1 <= length l /\ forallb local_char l = true /\
    1 <= length d /\ forallb domain_char d = true /\
    2 <= length t /\ forallb is_alpha t = true.

Definition email_shape (s : string) : Prop :=
  email_shape_chars (list_ascii_of_string s).

(** The header as the specification words it. *)
Definition spec_headers : row :=
  [VStr "Full Name"; VStr "Email"; VStr "Platform User ID"; VStr "Registration Date"].

(** ** Notions the statements about the adapter use *)

(** The row of a registration: what lines 69-74 of [bot.py] build from
    the dictionary and the clock, when the dictionary has the three keys. *)
Definition record_row (env : store_env) (user_info : gmap string pyval) : option row :=
  match user_info !! "name", user_info !! "email", user_info !! "user_id" with
  | Some name, Some email, Some user_id =>
      Some [name; email; user_id; VStr (strftime (now env))]
  | _, _, _ => None
  end.

(** The calls up to and including the read of A1 all return. *)
Definition connects (env : store_env) : Prop :=
  fault_credentials env = None /\ fault_authorize env = None /\
  fault_open_by_key env = None /\ fault_sheet1 env = None /\
  fault_get env = None.

(** The header is due: A1 is empty and the library reads an empty
    range as an empty list. With [gspread_6] it never is. *)
Definition header_due (env : store_env) (sh : worksheet) : Prop :=
  gspread env = gspread_5 /\ cell_A1 sh = None.

(** Every step of a run on sheet [sh] goes through: the calls return, the
    header is appended when it is due, the dictionary has its keys and the
    row of the registration is appended. *)
Definition append_succeeds (env : store_env) (user_info : gmap string pyval)
    (sh : worksheet) : Prop :=
  connects env /\
  (header_due env sh -> fault_append_headers env = None) /\
  is_Some (record_row env user_info) /\
  fault_append_new_row env = None.

(** The run gets as far as the header and appends it: the calls before
    it return, the header is due and its [append_row] returns. *)
Definition header_written (env : store_env) (sh : worksheet) : Prop :=
  connects env /\ header_due env sh /\ fault_append_headers env = None.

(** The header row a run on [sh] writes before its data row. *)
Definition headers_due (env : store_env) (sh : worksheet) : list row :=
  match gspread env, cell_A1 sh with
  | gspread_5, None => [headers]
  | _, _ => []
  end.

Definition header_rows (sh : worksheet) : nat :=
  length (filter (fun r => r = headers) sh).

(** Two runs in a row write the header at most once: they add no more
    than one header row, and when the first added one the second adds
    none. *)
Definition header_once (sh : worksheet) (e1 e2 : store_env)
    (u1 u2 : gmap string pyval) : Prop :=
  let sh1 := snd (save_to_google_sheet e1 u1 sh) in
  let sh2 := snd (save_to_google_sheet e2 u2 sh1) in
  header_rows sh2 <= header_rows sh + 1 /\
  (header_rows sh1 = header_rows sh + 1 -> header_rows sh2 = header_rows sh1).

(** An environment in which no call raises, with the gspread of today. *)
Definition no_fault (t : datetime) : store_env :=
  {| gspread := gspread_6;
     fault_credentials := None; fault_authorize := None;
     fault_open_by_key := None; fault_sheet1 := None; fault_get := None;
     fault_append_headers := None; fault_append_new_row := None; now := t |}.

(** Calls of the adapter one after the other: the booleans they return
    and the sheet they leave. A raised exception would end the sequence
    with [None]. *)
Fixpoint save_all (calls : list (store_env * gmap string pyval)) (sh : worksheet)
    : option (list bool * worksheet) :=
  match calls with
  | [] => Some ([], sh)
  | (env, user_info) :: rest =>
      match save_to_google_sheet env user_info sh with
      | (Ok b, sh') =>
          match save_all rest sh' with
          | Some (bs, sh'') => Some (b :: bs, sh'')
          | None => None
          end
      | (Raise _, _) => None
      end
  end.

(** The rows of the calls that returned [True], in the order of the calls. *)
Fixpoint saved_rows (calls : list (store_env * gmap string pyval)) (bs : list bool)
    : list row :=
  match calls, bs with
  | (env, user_info) :: rest, b :: bs' =>
      match b, record_row env user_info with
      | true, Some r => r :: saved_rows rest bs'
      | _, _ => saved_rows rest bs'
      end
  | _, _ => []
  end.

(** The header row as the first row of a sheet that was empty. *)
Definition first_row (lib : gspread_version) : list row :=
  match lib with
  | gspread_5 => [headers]
  | gspread_6 => []
  end.

(** What the adapter writes. In one run: the header or not, then the row
    of the registration or not; the header is the row [headers], and it
    is there exactly when the run got as far as appending it. Over the
    runs [calls], one after the other from the empty sheet: nothing, or
    the header when the library has it written and then the rows of the
    runs that returned [True], in the order of the runs. *)
Definition sheet_account (lib : gspread_version)
    (calls : list (store_env * gmap string pyval)) : Prop :=
  (forall env user_info sh,
     exists hs rs,
       snd (save_to_google_sheet env user_info sh) = sh ++ hs ++ rs /\
       ((hs = [] /\ ~ header_written env sh) \/
        (hs = [headers] /\ header_written env sh)) /\
       (rs = [] \/ exists r, record_row env user_info = Some r /\ rs = [r])) /\
  exists (bs : list bool) (sh : worksheet),
    save_all calls [] = Some (bs, sh) /\
    length bs = length calls /\
    (sh = [] \/ sh = first_row lib ++ saved_rows calls bs).

(** Reading a timestamp back: [YYYY-MM-DD HH:MM:SS], nineteen characters,
    digits where the letters stand. *)
Definition digit_value (c : ascii) : option N :=
  if is_digit c then Some (N_of_ascii c - 48)%N else None.

Fixpoint read_decimal (acc : N) (l : list ascii) : option N :=
  match l with
  | [] => Some acc
  | c :: l' =>
      match digit_value c with
      | Some v => read_decimal (10 * acc + v)%N l'
      | None => None
      end
  end.

Definition parse_timestamp (s : string) : option datetime :=
  match list_ascii_of_string s with
  | [y1; y2; y3; y4; s1; m1; m2; s2; d1; d2; s3; h1; h2; s4; n1; n2; s5; c1; c2] =>
      if (Ascii.eqb s1 "-" && Ascii.eqb s2 "-" && Ascii.eqb s3 " " &&
          Ascii.eqb s4 ":" && Ascii.eqb s5 ":")%char
      then
        match read_decimal 0 [y1; y2; y3; y4], read_decimal 0 [m1; m2],
              read_decimal 0 [d1; d2], read_decimal 0 [h1; h2],
              read_decimal 0 [n1; n2], read_decimal 0 [c1; c2] with
        | Some y, Some m, Some d, Some h, Some n, Some c =>
            Some {| year := y; month := m; day := d;
                    hour := h; minute := n; second := c |}
        | _, _, _, _, _, _ => None
        end
      else None
  | _ => None
  end.

(** Sample data for the closed statements. *)
Definition sample_time : datetime :=
  {| year := 2024; month := 3; day := 9; hour := 7; minute := 5; second := 0 |}.

Definition sample_info : gmap string pyval :=
  <["name" := VStr "Maria Rossi"]>
    (<["email" := VStr "maria@example.com"]> (<["user_id" := VInt 42]> ∅)).

(** ** Notions the statements about the conversation use *)

(** The links a reply carries: the urls of the buttons of its keyboard. *)
Definition reply_links (r : reply) : list string :=
  match r with
  | reply_html _ (Some keyboard) => map url (concat keyboard)
  | _ => []
  end.

Definition invite_keyboard (cfg : config) : list (list button) :=
  [[ {| label := "➡️ Clicca qui per entrare ⬅️"; url := GROUP_INVITE_LINK cfg |} ]].

(** The dictionary of a registration with its three keys. *)
Definition user_info_of (name email : pyval) (uid : Z) : gmap string pyval :=
  <["name" := name]> (<["email" := email]> (<["user_id" := VInt uid]> ∅)).

(** An update the email handler turns down: a text the validator rejects. *)
Definition invalid_email_update (u : update) : Prop :=
  exists t, message u = Text t /\ is_valid_email t = false.

(** The conversation [run cfg tr (initial sh)] is in [GET_EMAIL] with the
    name of its own [GET_NAME] step: the trace splits at an update [u]
    that arrived in state [GET_NAME] with the text [name], after which the
    state was [GET_EMAIL] all along; [user_data] holds that text under
    ["name"]; and on any valid address the email handler finds it, builds
    the dictionary of the registration with it, and returns. *)
Definition name_kept (cfg : config) (sh : worksheet)
    (tr : list (store_env * update)) : Prop :=
  let c := run cfg tr (initial sh) in
  exists tr0 e u name rest,
    tr = tr0 ++ (e, u) :: rest /\
    state (run cfg tr0 (initial sh)) = GET_NAME /\
    message u = Text name /\
    (forall rest1 rest2, rest = rest1 ++ rest2 ->
       state (run cfg (tr0 ++ (e, u) :: rest1) (initial sh)) = GET_EMAIL) /\
    user_data (data c) !! "name" = Some (VStr name) /\
    (forall env' u' t, message u' = Text t -> is_valid_email t = true ->
       fst ((setitem_user_data "email" (VStr t) ;;; build_user_info u') (data c)) =
         Ok (user_info_of (VStr name) (VStr t) (id (effective_user u'))) /\
       fst (get_email cfg env' u' (data c)) = Ok END).

(** Sample data for the conversation. *)
Definition sample_cfg : config :=
  {| BOT_TOKEN := "token"; GROUP_INVITE_LINK := "https://t.me/+invite";
     GOOGLE_SHEET_ID := "sheet-id" |}.

(** The same environment with another gspread. *)
Definition with_gspread (lib : gspread_version) (env : store_env) : store_env :=
  {| gspread := lib;
     fault_credentials := fault_credentials env;
     fault_authorize := fault_authorize env;
     fault_open_by_key := fault_open_by_key env;
     fault_sheet1 := fault_sheet1 env;
     fault_get := fault_get env;
     fault_append_headers := fault_append_headers env;
     fault_append_new_row := fault_append_new_row env;
     now := now env |}.

(** The sheet is not found when it is opened. *)
Definition sheet_not_found : store_env :=
  {| gspread := gspread_6;
     fault_credentials := None; fault_authorize := None;
     fault_open_by_key := Some SpreadsheetNotFound; fault_sheet1 := None;
     fault_get := None; fault_append_headers := None;
     fault_append_new_row := None; now := sample_time |}.

Definition sample_user : user := {| id := 42; first_name := "Luca" |}.

Definition sample_update (m : content) : store_env * update :=
  (no_fault sample_time, {| effective_user := sample_user; message := m |}).

(** ** The configuration read when the module loads *)

(** [os.getenv(key)]: [None] when the variable is not set. The
    environment is the one [load_dotenv()] leaves. *)
Definition getenv (environ : gmap string string) (key : string) : option string :=
  environ !! key.

(** [os.getenv(key, fallback)]: the fallback only when the variable is
    not set; a variable set to the empty text gives the empty text. *)
Definition getenv_or (environ : gmap string string) (key fallback : string) : string :=
  match environ !! key with
  | Some v => v
  | None => fallback
  end.

(** [not x] for [x] a text or [None]. *)
Definition not_set (x : option string) : bool :=
  match x with
  | None => true
  | Some "" => true
  | Some _ => false
  end.

Definition text_of (x : option string) : string :=
  match x with
  | Some v => v
  | None => ""
  end.

Definition config_error : string :=
  "Errore: devi impostare TELEGRAM_BOT_TOKEN, GROUP_INVITE_LINK e GOOGLE_SHEET_ID nel tuo file .env".

(** Lines 24-33 of [bot.py]: the four settings, or the [ValueError]
    with its message. The second component of a success is
    [GOOGLE_CREDENTIALS_FILE]. *)
Definition load_config (environ : gmap string string) : string + config * string :=
  let bot_token := getenv environ "TELEGRAM_BOT_TOKEN" in
  let group_invite_link := getenv environ "GROUP_INVITE_LINK" in
  let google_sheet_id := getenv environ "GOOGLE_SHEET_ID" in
  let google_credentials_file :=
    getenv_or environ "GOOGLE_CREDENTIALS_FILE" "credentials.json" in
  if not_set bot_token || not_set group_invite_link || not_set google_sheet_id
  then inl config_error
  else inr ({| BOT_TOKEN := text_of bot_token;
               GROUP_INVITE_LINK := text_of group_invite_link;
               GOOGLE_SHEET_ID := text_of google_sheet_id |},
            google_credentials_file).

(** ** The logger *)

Inductive level :=
| INFO
| ERROR.

#[global] Instance level_eq_dec : EqDecision level.
Proof. solve_decision. Defined.

(** A piece of an f-string: literal text, a value put in, or an
    exception put in. *)
Inductive fragment :=
| Lit (s : string)
| Val (v : pyval)
| Err (e : exc).

Record log_record := { levelname : level; pieces : list fragment }.

(** [logger.info] and [logger.error], on the records logged so far
    (oldest first). *)
Definition logger_info (pieces : list fragment) : M (list log_record) unit :=
  modify (fun l => l ++ [{| levelname := INFO; pieces := pieces |}]).

Definition logger_error (pieces : list fragment) : M (list log_record) unit :=
  modify (fun l => l ++ [{| levelname := ERROR; pieces := pieces |}]).

Definition errors (l : list log_record) : list log_record :=
  filter (fun r => levelname r = ERROR) l.

(** ** The start-up check [debug_google_access] *)

Definition debug_banner : list fragment :=
  [Lit "--- ESECUZIONE DEBUG ACCESSO GOOGLE (TRAMITE ID) ---"].

Definition debug_end : list fragment := [Lit "--- FINE DEBUG ---"].

Definition debug_attempt (cfg : config) : list fragment :=
  [Lit "Tentativo di aprire il foglio con ID: "; Val (VStr (GOOGLE_SHEET_ID cfg))].

Definition debug_success (title : string) : list fragment :=
  [Lit "✅ SUCCESSO! Il bot ha aperto correttamente il foglio chiamato: '";
   Val (VStr title); Lit "'"].

Definition debug_not_found (cfg : config) : list fragment :=
  [Lit ">>> FALLIMENTO! Il bot non riesce a trovare il foglio con ID '";
   Val (VStr (GOOGLE_SHEET_ID cfg)); Lit "'."].

Definition debug_advice : list fragment :=
  [Lit "Verifica che l'ID nel file .env sia corretto e che il foglio sia condiviso con l'email del bot."].

Definition debug_unexpected (e : exc) : list fragment :=
  [Lit "DEBUG ERRORE: Si è verificato un errore imprevisto: "; Err e].

(** The outcome of the calls of the check: the three calls that open the
    sheet, read from a [store_env], and the read of [sheet.title]. *)
Record debug_env := {
  access : store_env;
  title : result string
}.

Definition read_title {S} (t : result string) : M S string :=
  match t with
  | Ok v => ret v
  | Raise e => raise e
  end.

Definition debug_google_access (cfg : config) (env : debug_env)
    : M (list log_record) unit :=
  logger_info debug_banner ;;;
  try_except
    (call (fault_credentials (access env)) ;;;
     call (fault_authorize (access env)) ;;;
     logger_info (debug_attempt cfg) ;;;
     call (fault_open_by_key (access env)) ;;;
     t <- read_title (title env) ;;
     logger_info (debug_success t) ;;;
     logger_info debug_end)
    [ (CSpreadsheetNotFound,
       fun _ => logger_error (debug_not_found cfg) ;;;
                logger_error debug_advice ;;;
                logger_info debug_end);
      (CException, fun e => logger_error (debug_unexpected e)) ].

(** The first exception the calls of the check meet, if any. *)
Definition debug_fault (env : debug_env) : option exc :=
  match fault_credentials (access env), fault_authorize (access env),
        fault_open_by_key (access env), title env with
  | Some e, _, _, _ => Some e
  | None, Some e, _, _ => Some e
  | None, None, Some e, _ => Some e
  | None, None, None, Raise e => Some e
  | None, None, None, Ok _ => None
  end.

(** ** The adapter with its log *)

Definition save_header_added : list fragment :=
  [Lit "Intestazione aggiunta al Google Foglio."].

Definition save_done (name : pyval) : list fragment :=
  [Lit "Nuovo utente "; Val name; Lit " salvato su Google Fogli."].

Definition save_not_found (cfg : config) : list fragment :=
  [Lit "ERRORE: Foglio Google con ID '"; Val (VStr (GOOGLE_SHEET_ID cfg));
   Lit "' non trovato. Controlla che l'ID sia corretto e che il foglio sia stato condiviso con l'email dell'account di servizio."].

Definition save_api_error (e : exc) : list fragment :=
  [Lit "ERRORE API GOOGLE: "; Err e;
   Lit ". Controlla che le API 'Google Drive' e 'Google Sheets' siano abilitate nel tuo progetto Cloud."].

Definition save_generic_error (e : exc) : list fragment :=
  [Lit "Errore generico durante il salvataggio su Google Fogli: "; Err e].

(** The sheet together with the log. *)
Definition with_sheet {A} (m : M worksheet A) : M (worksheet * list log_record) A :=
  fun s =>
    match m (fst s) with
    | (r, sh') => (r, (sh', snd s))
    end.

Definition with_log {A} (m : M (list log_record) A)
    : M (worksheet * list log_record) A :=
  fun s =>
    match m (snd s) with
    | (r, l') => (r, (fst s, l'))
    end.

(** [save_to_google_sheet] as in [bot.py], the calls to [logger]
    included. *)
Definition save_body_logged (env : store_env) (user_info : gmap string pyval)
    : M (worksheet * list log_record) bool :=
  call (fault_credentials env) ;;;
  call (fault_authorize env) ;;;
  call (fault_open_by_key env) ;;;
  call (fault_sheet1 env) ;;;
  a1 <- with_sheet (sheet_get_A1 (gspread env) (fault_get env)) ;;
  (if negb (truthy a1)
   then with_sheet (append_row (fault_append_headers env) headers) ;;;
        with_log (logger_info save_header_added)
   else ret tt) ;;;
  name <- getitem user_info "name" ;;
  email <- getitem user_info "email" ;;
  user_id <- getitem user_info "user_id" ;;
  let new_row := [name; email; user_id; VStr (strftime (now env))] in
  with_sheet (append_row (fault_append_new_row env) new_row) ;;;
  logged_name <- getitem user_info "name" ;;
  with_log (logger_info (save_done logged_name)) ;;;
  ret true.

Definition save_to_google_sheet_logged (cfg : config) (env : store_env)
    (user_info : gmap string pyval) : M (worksheet * list log_record) bool :=
  try_except (save_body_logged env user_info)
    [ (CSpreadsheetNotFound,
       fun _ => with_log (logger_error (save_not_found cfg)) ;;; ret false);
      (CAPIError,
       fun e => with_log (logger_error (save_api_error e)) ;;; ret false);
      (CException,
       fun e => with_log (logger_error (save_generic_error e)) ;;; ret false) ].

(** The record an exception caught by the adapter is logged with. *)
Definition save_error_record (cfg : config) (e : exc) : log_record :=
  {| levelname := ERROR;
     pieces := match e with
               | SpreadsheetNotFound => save_not_found cfg
               | APIError _ => save_api_error e
               | _ => save_generic_error e
               end |}.

(** ** Notions the further statements use *)

(** The outcome of the calls with the exceptions forgotten: which call
    fails, not with what. Two runs have the same failures when the same
    calls fail in both, under the same library and at the same time. *)
Definition fails (f : option exc) : bool :=
  match f with
  | Some _ => true
  | None => false
  end.

Definition same_failures (e1 e2 : store_env) : Prop :=
  gspread e1 = gspread e2 /\
  fails (fault_credentials e1) = fails (fault_credentials e2) /\
  fails (fault_authorize e1) = fails (fault_authorize e2) /\
  fails (fault_open_by_key e1) = fails (fault_open_by_key e2) /\
  fails (fault_sheet1 e1) = fails (fault_sheet1 e2) /\
  fails (fault_get e1) = fails (fault_get e2) /\
  fails (fault_append_headers e1) = fails (fault_append_headers e2) /\
  fails (fault_append_new_row e1) = fails (fault_append_new_row e2) /\
  now e1 = now e2.

(** An environment with every exception replaced by one and the same. *)
Definition erase_fault (f : option exc) : option exc :=
  match f with
  | Some _ => Some (OtherException "")
  | None => None
  end.

Definition erase (env : store_env) : store_env :=
  {| gspread := gspread env;
     fault_credentials := erase_fault (fault_credentials env);
     fault_authorize := erase_fault (fault_authorize env);
     fault_open_by_key := erase_fault (fault_open_by_key env);
     fault_sheet1 := erase_fault (fault_sheet1 env);
     fault_get := erase_fault (fault_get env);
     fault_append_headers := erase_fault (fault_append_headers env);
     fault_append_new_row := erase_fault (fault_append_new_row env);
     now := now env |}.

(** The order of two clock readings: by year, then month, day, hour,
    minute and second. *)
Definition lex (c1 c2 : comparison) : comparison :=
  match c1 with
  | Eq => c2
  | _ => c1
  end.

Definition datetime_compare (d1 d2 : datetime) : comparison :=
  lex (year d1 ?= year d2)%N
    (lex (month d1 ?= month d2)%N
       (lex (day d1 ?= day d2)%N
          (lex (hour d1 ?= hour d2)%N
             (lex (minute d1 ?= minute d2)%N (second d1 ?= second d2)%N)))).

(** The number of [@] in a text. *)
Definition count_at (s : string) : nat :=
  count_occ ascii_dec (list_ascii_of_string s) "@"%char.

(** A row a conversation writes: a name and an address that are texts,
    the address one the validator accepts, the id of the user and a
    timestamp. *)
Definition registration_row (r : list pyval) : Prop :=
  exists name email uid t,
    r = [VStr name; VStr email; VInt uid; VStr (strftime t)] /\
    is_valid_email email = true.

(** What is collected in each state of a conversation that started
    with nothing: nothing before the name, the name alone after it. *)
Definition collected (c : conversation) : Prop :=
  match state c with
  | GET_EMAIL => exists name, user_data (data c) = {["name" := VStr name]}
  | _ => user_data (data c) = ∅
  end.

(** ** The validator and the shape *)

Section Validator.

Lemma local_class_char c : in_class local_class c = local_char c.
Proof. destruct c as [[] [] [] [] [] [] [] []]; reflexivity. Qed.

Lemma domain_class_char c : in_class domain_class c = domain_char c.
Proof. destruct c as [[] [] [] [] [] [] [] []]; reflexivity. Qed.

Lemma alpha_class_char c : in_class alpha_class c = is_alpha c.
Proof. destruct c as [[] [] [] [] [] [] [] []]; reflexivity. Qed.

(** The greedy repeat with backtracking finds a split of the subject
    whenever there is one: some prefix of at least [min] characters of
    the class after which the rest of the pattern matches. *)
Lemma match_rep_split cls k : forall s min pos,
  match_rep cls min k pos s = true <->
  exists p r, s = p ++ r /\ forallb (in_class cls) p = true /\
              min <= length p /\ k (pos + length p) r = true.
Proof.
  induction s as [|c s IH]; intros min pos; simpl.
  - rewrite andb_true_iff, Nat.eqb_eq. split.
    + intros [-> Hk]. exists [], []. simpl. rewrite Nat.add_0_r. auto.
    + intros (p & r & Hs & _ & Hmin & Hk).
      symmetry in Hs. apply app_eq_nil in Hs as [-> ->]. simpl in *.
      rewrite Nat.add_0_r in Hk. split; [lia | assumption].
  - destruct (in_class cls c) eqn:Hc.
    + rewrite orb_true_iff, andb_true_iff, Nat.eqb_eq, IH. split.
      * intros [(p & r & -> & Hp & Hmin & Hk) | [-> Hk]].
        -- exists (c :: p), r. simpl. rewrite Hc, Hp.
           replace (pos + S (length p)) with (S pos + length p) by lia.
           repeat split; auto; lia.
        -- exists [], (c :: s). simpl. rewrite Nat.add_0_r. auto.
      * intros (p & r & Hs & Hp & Hmin & Hk). destruct p as [|c' p].
        -- right. simpl in *. subst r. rewrite Nat.add_0_r in Hk.
           split; [lia | assumption].
        -- left. simpl in *. injection Hs as -> ->.
           apply andb_true_iff in Hp as [_ Hp]. exists p, r.
           rewrite Nat.add_succ_r in Hk.
           repeat split; auto; lia.
    + rewrite andb_true_iff, Nat.eqb_eq. split.
      * intros [-> Hk]. exists [], (c :: s). simpl.
        rewrite Nat.add_0_r. auto.
      * intros (p & r & Hs & Hp & Hmin & Hk). destruct p as [|c' p].
        -- simpl in *. subst r. rewrite Nat.add_0_r in Hk.
           split; [lia | assumption].
        -- simpl in *. injection Hs as -> ->. rewrite Hc in Hp. discriminate.
  Qed.

Lemma forallb_class {cls f} (H : forall c, in_class cls c = f c) l :
  forallb (in_class cls) l = forallb f l.
Proof. induction l as [|c l IH]; simpl; [reflexivity | now rewrite H, IH]. Qed.

(** What the pattern accepts, read off the matcher: the shape, followed
    by whatever [$] lets through. *)
Lemma match_email_regex s :
  match_here email_regex 0 s = true <->
  exists l d t tail,
    s = l ++ "@"%char :: d ++ "."%char :: t ++ tail /\
    1 <= length l /\ forallb local_char l = true /\
    1 <= length d /\ forallb domain_char d = true /\
    2 <= length t /\ forallb is_alpha t = true /\
    at_end tail = true.
Proof.
  unfold email_regex. cbn [match_here]. simpl (0 =? 0). rewrite andb_true_l.
  rewrite match_rep_split. split.
  - intros (l & r & -> & Hl & Hlen & Hk).
    destruct r as [|a r]; [discriminate|].
    apply andb_true_iff in Hk as [Ha Hk]. apply Ascii.eqb_eq in Ha as ->.
    apply match_rep_split in Hk as (d & r' & -> & Hd & Hdlen & Hk).
    destruct r' as [|b r']; [discriminate|].
    apply andb_true_iff in Hk as [Hb Hk]. apply Ascii.eqb_eq in Hb as ->.
    apply match_rep_split in Hk as (t & tail & -> & Ht & Htlen & Hk).
    rewrite andb_true_r in Hk.
    exists l, d, t, tail.
    rewrite (forallb_class local_class_char) in Hl.
    rewrite (forallb_class domain_class_char) in Hd.
    rewrite (forallb_class alpha_class_char) in Ht.
    repeat split; auto.
  - intros (l & d & t & tail & -> & Hlen & Hl & Hdlen & Hd & Htlen & Ht & He).
    exists l, ("@"%char :: d ++ "."%char :: t ++ tail).
    rewrite (forallb_class local_class_char).
    repeat split; auto.
    rewrite Ascii.eqb_refl, andb_true_l. apply match_rep_split.
    exists d, ("."%char :: t ++ tail).
    rewrite (forallb_class domain_class_char).
    repeat split; auto.
    rewrite Ascii.eqb_refl, andb_true_l. apply match_rep_split.
    exists t, tail.
    rewrite (forallb_class alpha_class_char).
    repeat split; auto.
    now rewrite andb_true_r.
Qed.

Lemma at_end_cases tail :
  at_end tail = true <-> tail = [] \/ tail = ["010"%char].
Proof.
  destruct tail as [|c [|c' tail]]; simpl.
  - intuition.
  - rewrite Ascii.eqb_eq. split; [intros ->; auto | intros [?|[=]]; congruence].
  - split; [discriminate | intros [?|?]; discriminate].
Qed.

(** The validator accepts the addresses of the shape, and besides them
    the same addresses with one line feed after them. *)
Lemma is_valid_email_chars s :
  is_valid_email s = true <->
  email_shape_chars (list_ascii_of_string s) \/
  exists s0, list_ascii_of_string s = s0 ++ ["010"%char] /\ email_shape_chars s0.
Proof.
  unfold is_valid_email, re_match. rewrite match_email_regex. split.
  - intros (l & d & t & tail & Hs & Hl1 & Hl & Hd1 & Hd & Ht1 & Ht & He).
    apply at_end_cases in He as [-> | ->].
    + left. exists l, d, t. rewrite app_nil_r in Hs. repeat split; auto.
    + right. exists (l ++ "@"%char :: d ++ "."%char :: t). split.
      * rewrite Hs. rewrite <- !app_assoc. simpl. rewrite <- app_assoc.
        reflexivity.
      * exists l, d, t. repeat split; auto.
  - intros [(l & d & t & Hs & H) | (s0 & Hs & l & d & t & -> & H)].
    + exists l, d, t, []. rewrite app_nil_r.
      repeat split; try apply H; auto.
    + exists l, d, t, ["010"%char]. split.
      * rewrite Hs. rewrite <- !app_assoc. simpl. rewrite <- app_assoc.
        reflexivity.
      * repeat split; try apply H; auto.
Qed.

Lemma email_shape_valid s : email_shape s -> is_valid_email s = true.
Proof. intros H. apply is_valid_email_chars. now left. Qed.

(** An address of the shape ends in a letter. *)
Lemma email_shape_last s :
  email_shape_chars s -> exists c, last s = Some c /\ is_alpha c = true.
Proof.
  intros (l & d & t & -> & _ & _ & _ & _ & Hlen & Ht).
  induction t as [|c t' _] using rev_ind; [simpl in Hlen; lia|].
  exists c. split.
  - change (l ++ "@"%char :: d ++ "."%char :: t' ++ [c])
      with (l ++ ("@"%char :: d) ++ ("."%char :: t') ++ [c]).
    rewrite !app_assoc. apply last_snoc.
  - rewrite forallb_app in Ht. apply andb_true_iff in Ht as [_ Ht].
    simpl in Ht. now rewrite andb_true_r in Ht.
Qed.

End Validator.

(** C1. The validator accepts a string that is not of the shape: an
    address followed by a line feed passes, because [$] also matches just
    before a line feed that ends the string. The specification asks for a
    match of the whole string. *)
Theorem is_valid_email_accepts_trailing_line_feed :
  is_valid_email ("a@b.co" +:+ nl) = true /\ ~ email_shape ("a@b.co" +:+ nl).
Proof.
  split; [reflexivity|].
  intros H. apply email_shape_last in H as (c & Hlast & Hc).
  vm_compute in Hlast. injection Hlast as <-. discriminate Hc.
Qed.

(** Closes the case of [save_body_cases] in which the run raises [e]
    and leaves the sheet [s]. *)
Ltac refute :=
  intro;
  repeat match goal with
         | H : _ /\ _ |- _ => destruct H
         | H : is_Some _ |- _ => destruct H
         end;
  try congruence;
  try (match goal with
       | H : _ /\ _ -> _ |- _ => specialize (H (conj eq_refl eq_refl))
       end; congruence).

Ltac raised_at e s :=
  right; exists e, s; split; [refute|]; split; [reflexivity|];
  first [ left; split; [reflexivity | refute]
        | right; split; [reflexivity | repeat split; auto] ].

(** ** The adapter *)

Section Adapter.

Variables (env : store_env) (user_info : gmap string pyval) (sh : worksheet).

(** The three [except] clauses between them take every exception. *)
Lemma handle_returns_false (e : exc) (s : worksheet) :
  handle [ (CSpreadsheetNotFound, fun _ => ret false);
           (CAPIError, fun _ => ret false);
           (CException, fun _ => ret false) ] e s = (Ok false, s).
Proof. destruct e; reflexivity. Qed.

Lemma save_unfold :
  save_to_google_sheet env user_info sh =
  match save_body env user_info sh with
  | (Ok b, s') => (Ok b, s')
  | (Raise _, s') => (Ok false, s')
  end.
Proof.
  unfold save_to_google_sheet, try_except.
  destruct (save_body env user_info sh) as [[b|e] s']; [reflexivity|].
  apply handle_returns_false.
Qed.

(** What one run of the [try] body does: all of it, leaving the header
    when due and the row; or it raises, before any write or between the
    header and the row. *)
Lemma save_body_cases :
  (exists r, append_succeeds env user_info sh /\
             record_row env user_info = Some r /\
             save_body env user_info sh =
               (Ok true, sh ++ headers_due env sh ++ [r]))
  \/
  (exists e s', ~ append_succeeds env user_info sh /\
                save_body env user_info sh = (Raise e, s') /\
                ((s' = sh /\ ~ header_written env sh) \/
                 (s' = sh ++ [headers] /\ header_written env sh))).
Proof.
  unfold append_succeeds, header_written, header_due, connects, record_row,
    headers_due, save_body.
  destruct env as [lib f1 f2 f3 f4 f5 f6 f7 t]; simpl.
  destruct f1 as [e|]; [raised_at e sh|].
  destruct f2 as [e|]; [raised_at e sh|].
  destruct f3 as [e|]; [raised_at e sh|].
  destruct f4 as [e|]; [raised_at e sh|].
  destruct f5 as [e|]; [raised_at e sh|].
  unfold bind, call, sheet_get_A1, append_row, getitem, gets, modify, ret, raise.
  simpl.
  destruct (cell_A1 sh) as [v|] eqn:HA1; destruct lib; simpl.
  - destruct (user_info !! "name") as [name|]; [|raised_at (KeyError "name") sh].
    destruct (user_info !! "email") as [email|]; [|raised_at (KeyError "email") sh].
    destruct (user_info !! "user_id") as [uid|]; [|raised_at (KeyError "user_id") sh].
    destruct f7 as [e|]; [raised_at e sh|].
    left. eexists. repeat split; eauto. intros [_ H]. discriminate H.
  - destruct (user_info !! "name") as [name|]; [|raised_at (KeyError "name") sh].
    destruct (user_info !! "email") as [email|]; [|raised_at (KeyError "email") sh].
    destruct (user_info !! "user_id") as [uid|]; [|raised_at (KeyError "user_id") sh].
    destruct f7 as [e|]; [raised_at e sh|].
    left. eexists. repeat split; eauto. intros [_ H]. discriminate H.
  - destruct f6 as [e|]; [raised_at e sh|]. simpl.
    destruct (user_info !! "name") as [name|];
      [|raised_at (KeyError "name") (sh ++ [headers])].
    destruct (user_info !! "email") as [email|];
      [|raised_at (KeyError "email") (sh ++ [headers])].
    destruct (user_info !! "user_id") as [uid|];
      [|raised_at (KeyError "user_id") (sh ++ [headers])].
    destruct f7 as [e|]; [raised_at e (sh ++ [headers])|].
    left. eexists. repeat split; eauto.
    cbv [bind call ret]. now rewrite <- app_assoc.
  - destruct (user_info !! "name") as [name|]; [|raised_at (KeyError "name") sh].
    destruct (user_info !! "email") as [email|]; [|raised_at (KeyError "email") sh].
    destruct (user_info !! "user_id") as [uid|]; [|raised_at (KeyError "user_id") sh].
    destruct f7 as [e|]; [raised_at e sh|].
    left. eexists. repeat split; eauto. intros [H _]. discriminate H.
Qed.

(** The same for the adapter as a whole: it returns, [True] with the
    row written or [False] without it. *)
Lemma save_cases :
  (exists r, append_succeeds env user_info sh /\
             record_row env user_info = Some r /\
             save_to_google_sheet env user_info sh =
               (Ok true, sh ++ headers_due env sh ++ [r]))
  \/
  (exists s', ~ append_succeeds env user_info sh /\
              save_to_google_sheet env user_info sh = (Ok false, s') /\
              ((s' = sh /\ ~ header_written env sh) \/
               (s' = sh ++ [headers] /\ header_written env sh))).
Proof.
  rewrite save_unfold.
  destruct save_body_cases as [(r & Hok & Hr & ->) | (e & s' & Hno & -> & Hs)].
  - left. eauto.
  - right. eauto.
Qed.

Lemma save_to_google_sheet_outcome :
  exists (b : bool) (sh' : worksheet),
    save_to_google_sheet env user_info sh = (Ok b, sh').
Proof.
  destruct save_cases as [(r & _ & _ & ->) | (s' & _ & -> & _)]; eauto.
Qed.

End Adapter.

(** C2. Whatever the library and whatever its calls do, the adapter
    returns a boolean and raises nothing: [True] exactly when every step
    went through, and then the row of the registration is the last row
    of the sheet; [False] otherwise, and then that row was not written:
    the sheet is as it was, or has the header as its new last row when
    the run had got as far as appending it. *)
Theorem save_to_google_sheet_returns_boolean
    (env : store_env) (user_info : gmap string pyval) (sh : worksheet) :
  exists (b : bool) (sh' : worksheet),
    save_to_google_sheet env user_info sh = (Ok b, sh') /\
    (b = true <-> append_succeeds env user_info sh) /\
    (b = true ->
       exists r, record_row env user_info = Some r /\
                 sh' = sh ++ headers_due env sh ++ [r]) /\
    (b = false ->
       (sh' = sh /\ ~ header_written env sh) \/
       (sh' = sh ++ [headers] /\ header_written env sh)).
Proof.
  destruct (save_cases env user_info sh)
    as [(r & Hok & Hr & Hs) | (s' & Hno & Hs & Hs')].
  - exists true, (sh ++ headers_due env sh ++ [r]).
    split; [exact Hs|]. split; [tauto|]. split; [eauto | discriminate].
  - exists false, s'.
    split; [exact Hs|]. split; [split; [discriminate | contradiction]|].
    split; [discriminate | tauto].
Qed.

(** ** Timestamps *)

Section Timestamp.

Lemma digit_char_value (n : N) :
  digit_value (digit_char n) = Some (n mod 10)%N.
Proof.
  unfold digit_char.
  assert (H : (n mod 10 < 10)%N) by (apply N.mod_lt; discriminate).
  set (m := (n mod 10)%N) in *. clearbody m.
  assert (Hm : (m = 0 \/ m = 1 \/ m = 2 \/ m = 3 \/ m = 4 \/ m = 5 \/
                m = 6 \/ m = 7 \/ m = 8 \/ m = 9)%N) by lia.
  repeat destruct Hm as [-> | Hm]; try subst m; reflexivity.
Qed.


Lemma read_two (n : N) :
  (n <= 99)%N -> read_decimal 0 (zero_pad 2 n) = Some n.
Proof.
  intros H. cbn [zero_pad app read_decimal].
  rewrite digit_char_value. cbn [read_decimal].
  rewrite digit_char_value. cbn [read_decimal]. f_equal.
  pose proof (N.div_mod n 10). pose proof (N.mod_lt n 10).
  pose proof (N.mod_small (n / 10) 10).
  assert (n / 10 < 10)%N by (apply N.Div0.div_lt_upper_bound; lia).
  lia.
Qed.


Lemma read_four (n : N) :
  (n <= 9999)%N -> read_decimal 0 (zero_pad 4 n) = Some n.
Proof.
  intros H. cbn [zero_pad app read_decimal].
  rewrite digit_char_value. cbn [read_decimal].
  rewrite digit_char_value. cbn [read_decimal].
  rewrite digit_char_value. cbn [read_decimal].
  rewrite digit_char_value. cbn [read_decimal]. f_equal.
  pose proof (N.div_mod n 10). pose proof (N.mod_lt n 10).
  pose proof (N.div_mod (n / 10) 10). pose proof (N.mod_lt (n / 10) 10).
  pose proof (N.div_mod (n / 10 / 10) 10).
  pose proof (N.mod_lt (n / 10 / 10) 10).
  pose proof (N.mod_small (n / 10 / 10 / 10) 10).
  assert (n / 10 < 1000)%N by (apply N.Div0.div_lt_upper_bound; lia).
  assert (n / 10 / 10 < 100)%N by (apply N.Div0.div_lt_upper_bound; lia).
  assert (n / 10 / 10 / 10 < 10)%N by (apply N.Div0.div_lt_upper_bound; lia).
  lia.
Qed.


Lemma year_digits_four (y : N) :
  (1000 <= y)%N -> year_digits y = zero_pad 4 y.
Proof.
  intros H. unfold year_digits, year_width.
  destruct (N.ltb_spec y 10); [lia|].
  destruct (N.ltb_spec y 100); [lia|].
  destruct (N.ltb_spec y 1000); [lia | reflexivity].
Qed.


(** A year of four digits and what follows read back as the reading. *)
Lemma parse_four_digit_year (d : datetime) :
  (year d <= 9999 /\ month d <= 99 /\ day d <= 99 /\
   hour d <= 99 /\ minute d <= 99 /\ second d <= 99)%N ->
  parse_timestamp (string_of_list_ascii (zero_pad 4 (year d) ++ after_year d)) =
    Some d.
Proof.
  intros (Hy & Hm & Hd & Hh & Hn & Hs).
  pose proof (read_four (year d) Hy) as Ry.
  pose proof (read_two (month d) Hm) as Rm.
  pose proof (read_two (day d) Hd) as Rd.
  pose proof (read_two (hour d) Hh) as Rh.
  pose proof (read_two (minute d) Hn) as Rn.
  pose proof (read_two (second d) Hs) as Rs.
  unfold parse_timestamp, after_year.
  rewrite list_ascii_of_string_of_list_ascii.
  cbn [zero_pad app] in *. cbn [Ascii.eqb Bool.eqb andb].
  rewrite Ry, Rm, Rd, Rh, Rn, Rs. destruct d; reflexivity.
Qed.

(** From the year 1000 on the timestamp has the format
    [YYYY-MM-DD HH:MM:SS] and reads back as the time it was made from. *)
Lemma parse_strftime (d : datetime) :
  valid_datetime d -> (1000 <= year d)%N ->
  parse_timestamp (strftime d) = Some d.
Proof.
  intros (Hy & Hm & Hd & Hh & Hn & Hs) Hk.
  unfold strftime. rewrite year_digits_four by assumption.
  apply parse_four_digit_year. lia.
Qed.

(** A timestamp ends in a digit. *)
Lemma strftime_last (d : datetime) :
  last (list_ascii_of_string (strftime d)) = Some (digit_char (second d)).
Proof.
  unfold strftime, after_year. rewrite list_ascii_of_string_of_list_ascii.
  cbn [zero_pad]. rewrite !app_assoc. apply last_snoc.
Qed.

End Timestamp.

(** ** Sheets *)

Section Sheets.

Lemma cell_A1_app (sh l : worksheet) :
  is_Some (cell_A1 sh) -> cell_A1 (sh ++ l) = cell_A1 sh.
Proof.
  destruct sh as [|[|v r] sh]; simpl; intros [x Hx]; try discriminate.
  reflexivity.
Qed.

Lemma cell_A1_headers (l : worksheet) : is_Some (cell_A1 (headers :: l)).
Proof. simpl. eauto. Qed.

(** A timestamp is no column title, so the row of a registration is
    never the header row. *)
Lemma record_row_not_headers env user_info r :
  record_row env user_info = Some r -> r <> headers.
Proof.
  unfold record_row.
  destruct (user_info !! "name"), (user_info !! "email"),
    (user_info !! "user_id"); try discriminate.
  intros [= <-] H.
  apply (f_equal (fun r : row =>
                    match r with
                    | [_; _; _; VStr s] => last (list_ascii_of_string s)
                    | _ => None
                    end)) in H.
  rewrite strftime_last in H. injection H as H.
  apply (f_equal digit_value) in H. rewrite digit_char_value in H.
  discriminate H.
Qed.



Lemma headers_due_not_due env sh : ~ header_due env sh -> headers_due env sh = [].
Proof.
  unfold header_due, headers_due.
  destruct (gspread env), (cell_A1 sh); try reflexivity.
  intros H. exfalso. apply H. auto.
Qed.

Lemma headers_due_due env sh : header_due env sh -> headers_due env sh = [headers].
Proof. unfold header_due, headers_due. now intros [-> ->]. Qed.

Lemma not_due_with_A1 env sh : is_Some (cell_A1 sh) -> ~ header_due env sh.
Proof. intros [v Hv] [_ H]. congruence. Qed.

Lemma not_due_gspread_6 env sh : gspread env = gspread_6 -> ~ header_due env sh.
Proof. intros Hv [H _]. congruence. Qed.

(** One run on which the header is not due: no header, and either
    nothing or the row of the registration under what was there. *)
Lemma save_without_header env user_info sh :
  ~ header_due env sh ->
  save_to_google_sheet env user_info sh = (Ok false, sh) \/
  exists r, record_row env user_info = Some r /\
            save_to_google_sheet env user_info sh = (Ok true, sh ++ [r]).
Proof.
  intros Hno.
  destruct (save_cases env user_info sh)
    as [(r & _ & Hr & Hs) | (s' & _ & Hs & [[-> _] | [_ (_ & Hd & _)]])].
  - right. exists r. now rewrite headers_due_not_due in Hs.
  - now left.
  - contradiction.
Qed.

Lemma save_with_A1 env user_info sh :
  is_Some (cell_A1 sh) ->
  save_to_google_sheet env user_info sh = (Ok false, sh) \/
  exists r, record_row env user_info = Some r /\
            save_to_google_sheet env user_info sh = (Ok true, sh ++ [r]).
Proof. intros H. now apply save_without_header, not_due_with_A1. Qed.


(** Calls one after the other on a sheet with something in A1 put the
    rows of the successful ones under it, in order. *)
Lemma save_all_with_A1 calls : forall sh,
  is_Some (cell_A1 sh) ->
  exists bs, save_all calls sh = Some (bs, sh ++ saved_rows calls bs).
Proof.
  induction calls as [|[env ui] calls IH]; intros sh HA; simpl.
  - exists []. now rewrite app_nil_r.
  - destruct (save_with_A1 env ui sh HA) as [-> | (r & Hr & ->)].
    + destruct (IH sh HA) as (bs & ->). exists (false :: bs). reflexivity.
    + destruct (IH (sh ++ [r])) as (bs & ->).
      { rewrite cell_A1_app; assumption. }
      exists (true :: bs). rewrite Hr, <- app_assoc. reflexivity.
Qed.

(** The same on any sheet when the library is [gspread_6] throughout. *)
Lemma save_all_gspread_6 calls : forall sh,
  Forall (fun c => gspread (fst c) = gspread_6) calls ->
  exists bs, save_all calls sh = Some (bs, sh ++ saved_rows calls bs).
Proof.
  induction calls as [|[env ui] calls IH]; intros sh Hall; simpl.
  - exists []. now rewrite app_nil_r.
  - apply Forall_cons in Hall as [Hv Hall]. simpl in Hv.
    destruct (save_without_header env ui sh (not_due_gspread_6 env sh Hv))
      as [-> | (r & Hr & ->)].
    + destruct (IH sh Hall) as (bs & ->). exists (false :: bs). reflexivity.
    + destruct (IH (sh ++ [r]) Hall) as (bs & ->).
      exists (true :: bs). rewrite Hr, <- app_assoc. reflexivity.
Qed.

Lemma save_all_length calls : forall sh bs sh',
  save_all calls sh = Some (bs, sh') -> length bs = length calls.
Proof.
  induction calls as [|[e u] cs IH]; simpl; intros s bs s' H.
  - now injection H as <- _.
  - destruct (save_to_google_sheet e u s) as [[b|x] s1]; [|discriminate].
    destruct (save_all cs s1) as [[bs1 s2]|] eqn:E; [|discriminate].
    injection H as <- _. simpl. f_equal. eapply IH, E.
Qed.

(** What one sheet or another with the same A1, empty or not, gets from
    the same run is the same. *)
Lemma save_depends_on_A1 env user_info sh1 sh2 :
  (cell_A1 sh1 = None <-> cell_A1 sh2 = None) ->
  exists (b : bool) (ws : worksheet),
    save_to_google_sheet env user_info sh1 = (Ok b, sh1 ++ ws) /\
    save_to_google_sheet env user_info sh2 = (Ok b, sh2 ++ ws).
Proof.
  intros HA.
  assert (Hdue : header_due env sh1 <-> header_due env sh2)
    by (unfold header_due; tauto).
  assert (Hw : header_written env sh1 <-> header_written env sh2)
    by (unfold header_written; tauto).
  assert (Hok : append_succeeds env user_info sh1 <->
                append_succeeds env user_info sh2)
    by (unfold append_succeeds; tauto).
  assert (Hhd : headers_due env sh1 = headers_due env sh2).
  { unfold headers_due. destruct (gspread env); [|reflexivity].
    destruct (cell_A1 sh1) eqn:H1, (cell_A1 sh2) eqn:H2; try reflexivity;
      exfalso; destruct HA as [HA1 HA2];
      [specialize (HA2 eq_refl) | specialize (HA1 eq_refl)]; discriminate. }
  destruct (save_cases env user_info sh1)
    as [(r & Hs1 & Hr & ->) | (s1 & Hn1 & -> & Hf1)];
    destruct (save_cases env user_info sh2)
      as [(r2 & Hs2 & Hr2 & ->) | (s2 & Hn2 & -> & Hf2)]; try tauto.
  - exists true, (headers_due env sh1 ++ [r]).
    rewrite Hhd. split; [reflexivity|]. congruence.
  - destruct Hf1 as [[-> Hw1] | [-> Hw1]], Hf2 as [[-> Hw2] | [-> Hw2]];
      try tauto.
    + exists false, []. now rewrite !app_nil_r.
    + exists false, [headers]. auto.
Qed.

End Sheets.



(** The sheets left out above, for the record: with [gspread_5] in both
    runs, on a sheet whose row 1 is blank while A2 holds a note, the
    header lands in row 3, A1 stays empty, and the second run writes the
    header again. *)
Lemma header_written_twice_with_gspread_5 :
  ~ header_once [[]; [VStr "note"]]
      (with_gspread gspread_5 (no_fault sample_time))
      (with_gspread gspread_5 (no_fault sample_time)) sample_info sample_info.
Proof.
  unfold header_once. vm_compute. intros [H _]. lia.
Qed.

(** C4, as the specification has it, fails: where the adapter writes a
    header, with [gspread_5] on the empty sheet, the header is the one
    of [bot.py], in Italian, not the row the specification quotes. *)
Lemma headers_written_differ_from_spec :
  head (snd (save_to_google_sheet (with_gspread gspread_5 (no_fault sample_time))
               sample_info [])) = Some headers /\
  head (snd (save_to_google_sheet (with_gspread gspread_5 (no_fault sample_time))
               sample_info [])) <> Some spec_headers.
Proof. split; [reflexivity | discriminate]. Qed.

(** C4, as the code has it. Whenever the adapter writes a header row,
    the row is [Nome Cognome, Email, ID Telegram, Data Registrazione];
    it writes it exactly when the run gets as far as the header and the
    header is due, which takes [gspread_5] and an empty A1. Runs one after
    the other from the empty sheet, under one library, leave nothing, or,
    after the header where it is written, the rows of the registrations
    whose run returned [True], in the order of the runs. *)
Theorem sheet_is_header_then_records
    (lib : gspread_version) (calls : list (store_env * gmap string pyval)) :
  Forall (fun c => gspread (fst c) = lib) calls ->
  sheet_account lib calls.
Proof.
  intros Hall. split.
  - intros env ui sh.
    destruct (save_cases env ui sh)
      as [(r & Hok & Hr & ->) | (s' & _ & -> & [[-> Hw] | [-> Hw]])]; simpl.
    + exists (headers_due env sh), [r]. split; [reflexivity|]. split; [|eauto].
      destruct Hok as (Hc & Hh & _).
      assert (Hd : header_due env sh \/ ~ header_due env sh).
      { unfold header_due. destruct (gspread env), (cell_A1 sh); auto;
          right; intros [? ?]; congruence. }
      destruct Hd as [Hd | Hd].
      * right. split; [now apply headers_due_due|].
        exact (conj Hc (conj Hd (Hh Hd))).
      * left. split; [now apply headers_due_not_due|]. now intros (_ & ? & _).
    + exists [], []. rewrite app_nil_r. auto.
    + exists [headers], []. auto.
  - destruct lib.
    + induction calls as [|[env ui] calls IH]; simpl.
      * exists [], []. auto.
      * apply Forall_cons in Hall as [Hv Hall]. simpl in Hv.
        destruct (save_cases env ui [])
          as [(r & _ & Hr & ->) | (s' & _ & -> & [[-> _] | [-> _]])]; simpl.
        -- rewrite headers_due_due by (split; [assumption | reflexivity]).
           destruct (save_all_with_A1 calls ([headers] ++ [r])) as (bs & Hbs);
             [apply cell_A1_headers|].
           rewrite Hbs. exists (true :: bs), (([headers] ++ [r]) ++ saved_rows calls bs).
           rewrite Hr. simpl. repeat split; auto.
           f_equal. eapply save_all_length, Hbs.
        -- destruct (IH Hall) as (bs & sh & Hbs & Hl & Hsh). rewrite Hbs.
           exists (false :: bs), sh. simpl. repeat split; auto.
        -- destruct (save_all_with_A1 calls [headers]) as (bs & Hbs);
             [apply cell_A1_headers|].
           rewrite Hbs. exists (false :: bs), ([headers] ++ saved_rows calls bs).
           simpl. repeat split; auto. f_equal. eapply save_all_length, Hbs.
    + destruct (save_all_gspread_6 calls [] Hall) as (bs & Hbs).
      exists bs, (saved_rows calls bs). split; [exact Hbs|].
      split; [eapply save_all_length, Hbs | right; reflexivity].
Qed.

(** C4, witness: two registrations on an empty sheet with [gspread_5]. *)
Lemma sheet_is_header_then_records_witness :
  let calls := [(with_gspread gspread_5 (no_fault sample_time), sample_info);
                (with_gspread gspread_5 (no_fault sample_time), sample_info)] in
  Forall (fun c => gspread (fst c) = gspread_5) calls /\
  sheet_account gspread_5 calls.
Proof.
  intros calls.
  assert (H : Forall (fun c => gspread (fst c) = gspread_5) calls)
    by (repeat constructor).
  split; [exact H|].
  exact (sheet_is_header_then_records gspread_5 calls H).
Defined.

(** C7. When the adapter returns [True] the row it wrote, the last of
    the sheet, holds the four fields in the order name, email, user id,
    timestamp, and the timestamp is the clock reading in the format
    [YYYY-MM-DD HH:MM:SS]: it reads back as that reading. The clock is
    taken to read a year of four digits, as [datetime.now()] does. *)
Theorem new_row_has_four_fields_in_order
    (env : store_env) (user_info : gmap string pyval) (sh sh' : worksheet) :
  save_to_google_sheet env user_info sh = (Ok true, sh') ->
  valid_datetime (now env) ->
  (1000 <= year (now env))%N ->
  exists name email user_id,
    user_info !! "name" = Some name /\
    user_info !! "email" = Some email /\
    user_info !! "user_id" = Some user_id /\
    sh' = sh ++ headers_due env sh ++
          [[name; email; user_id; VStr (strftime (now env))]] /\
    last sh' = Some [name; email; user_id; VStr (strftime (now env))] /\
    parse_timestamp (strftime (now env)) = Some (now env).
Proof.
  intros Hsave Hvalid Hyear.
  destruct (save_cases env user_info sh)
    as [(r & _ & Hr & Hs) | (s' & _ & Hs & _)]; [|congruence].
  rewrite Hs in Hsave. injection Hsave as <-.
  unfold record_row in Hr.
  destruct (user_info !! "name") as [name|]; [|discriminate].
  destruct (user_info !! "email") as [email|]; [|discriminate].
  destruct (user_info !! "user_id") as [user_id|]; [|discriminate].
  injection Hr as <-. exists name, email, user_id.
  repeat split; auto.
  - rewrite !app_assoc. apply last_snoc.
  - now apply parse_strftime.
Qed.

(** C7, witness: the first registration on an empty sheet. *)
Lemma new_row_has_four_fields_in_order_witness :
  (save_to_google_sheet (no_fault sample_time) sample_info [] =
     (Ok true, [[VStr "Maria Rossi"; VStr "maria@example.com"; VInt 42;
                 VStr "2024-03-09 07:05:00"]]) /\
   valid_datetime (now (no_fault sample_time)) /\
   (1000 <= year (now (no_fault sample_time)))%N) /\
  exists name email user_id,
    sample_info !! "name" = Some name /\
    sample_info !! "email" = Some email /\
    sample_info !! "user_id" = Some user_id /\
    [[VStr "Maria Rossi"; VStr "maria@example.com"; VInt 42;
      VStr "2024-03-09 07:05:00"]] =
      [] ++ headers_due (no_fault sample_time) [] ++
        [[name; email; user_id; VStr (strftime (now (no_fault sample_time)))]] /\
    last [[VStr "Maria Rossi"; VStr "maria@example.com"; VInt 42;
           VStr "2024-03-09 07:05:00"]] =
      Some [name; email; user_id; VStr (strftime (now (no_fault sample_time)))] /\
    parse_timestamp (strftime (now (no_fault sample_time))) =
      Some (now (no_fault sample_time)).
Proof.
  assert (Hs : save_to_google_sheet (no_fault sample_time) sample_info [] =
     (Ok true, [[VStr "Maria Rossi"; VStr "maria@example.com"; VInt 42;
                 VStr "2024-03-09 07:05:00"]])) by reflexivity.
  assert (Hv : valid_datetime (now (no_fault sample_time)))
    by (unfold valid_datetime; simpl; lia).
  assert (Hy : (1000 <= year (now (no_fault sample_time)))%N) by (simpl; lia).
  split; [exact (conj Hs (conj Hv Hy))|].
  exact (new_row_has_four_fields_in_order _ _ _ _ Hs Hv Hy).
Defined.

(** C10. Only cell A1 bears on the header. On a sheet with anything in
    A1, the header or not, a run writes no header and appends the row of
    the registration under what was there: exactly that when the calls
    return and the dictionary has its keys, and nothing at all
    otherwise. A run that did write the header had found A1 empty. And
    two sheets that agree on whether A1 is empty get the same rows and
    the same boolean from the same run, whatever else they hold. *)
Theorem header_presence_decided_by_A1
    (env : store_env) (user_info : gmap string pyval) (sh : worksheet) :
  (is_Some (cell_A1 sh) ->
     (connects env -> fault_append_new_row env = None ->
      forall r, record_row env user_info = Some r ->
        save_to_google_sheet env user_info sh = (Ok true, sh ++ [r])) /\
     (save_to_google_sheet env user_info sh = (Ok false, sh) \/
      exists r, record_row env user_info = Some r /\
                save_to_google_sheet env user_info sh = (Ok true, sh ++ [r]))) /\
  (forall rest,
     snd (save_to_google_sheet env user_info sh) = sh ++ headers :: rest ->
     cell_A1 sh = None) /\
  (forall sh2, (cell_A1 sh = None <-> cell_A1 sh2 = None) ->
     exists (b : bool) (ws : worksheet),
       save_to_google_sheet env user_info sh = (Ok b, sh ++ ws) /\
       save_to_google_sheet env user_info sh2 = (Ok b, sh2 ++ ws)).
Proof.
  split; [|split].
  - intros HA. split; [|now apply save_with_A1].
    intros Hc Hf r Hr.
    destruct (save_cases env user_info sh)
      as [(r' & _ & Hr' & Hs) | (s' & Hno & _)].
    + rewrite headers_due_not_due in Hs by now apply not_due_with_A1.
      simpl in Hs. congruence.
    + exfalso. apply Hno. split; [assumption|]. split.
      * intros Hd. now apply not_due_with_A1 in Hd.
      * split; [rewrite Hr; eauto | assumption].
  - intros rest Hrest.
    destruct (cell_A1 sh) as [v|] eqn:HA; [exfalso | reflexivity].
    destruct (save_with_A1 env user_info sh) as [Hs | (r & Hr & Hs)];
      [rewrite HA; eauto | | ]; rewrite Hs in Hrest; simpl in Hrest.
    + rewrite <- (app_nil_r sh) in Hrest at 1.
      apply app_inv_head in Hrest. discriminate.
    + apply app_inv_head in Hrest. injection Hrest as -> _.
      now apply record_row_not_headers in Hr.
  - intros sh2. apply save_depends_on_A1.
Qed.

(** C10, witness: a sheet whose A1 holds a title that is not the header. *)
Lemma header_presence_decided_by_A1_witness :
  (is_Some (cell_A1 [[VStr "Registro"]]) /\
   connects (no_fault sample_time) /\
   fault_append_new_row (no_fault sample_time) = None /\
   record_row (no_fault sample_time) sample_info =
     Some [VStr "Maria Rossi"; VStr "maria@example.com"; VInt 42;
           VStr "2024-03-09 07:05:00"]) /\
  save_to_google_sheet (no_fault sample_time) sample_info [[VStr "Registro"]] =
    (Ok true, [[VStr "Registro"]] ++
              [[VStr "Maria Rossi"; VStr "maria@example.com"; VInt 42;
                VStr "2024-03-09 07:05:00"]]).
Proof.
  assert (H1 : is_Some (cell_A1 [[VStr "Registro"]])) by (eexists; reflexivity).
  assert (H2 : connects (no_fault sample_time)) by (repeat split; reflexivity).
  assert (H3 : fault_append_new_row (no_fault sample_time) = None) by reflexivity.
  assert (H4 : record_row (no_fault sample_time) sample_info =
            Some [VStr "Maria Rossi"; VStr "maria@example.com"; VInt 42;
                  VStr "2024-03-09 07:05:00"]) by reflexivity.
  split; [exact (conj H1 (conj H2 (conj H3 H4)))|].
  exact (proj1 (proj1 (header_presence_decided_by_A1 (no_fault sample_time)
                         sample_info [[VStr "Registro"]]) H1) H2 H3 _ H4).
Defined.

(** ** The conversation *)

Section Conversation.

Variable cfg : config.

Lemma run_app tr1 tr2 c : run cfg (tr1 ++ tr2) c = run cfg tr2 (run cfg tr1 c).
Proof. unfold run. apply fold_left_app. Qed.

Lemma run_snoc tr env u c :
  run cfg (tr ++ [(env, u)]) c = handle_update cfg env u (run cfg tr c).
Proof. now rewrite run_app. Qed.

(** The email handler on a text the validator rejects. *)
Lemma get_email_invalid env u w :
  is_valid_email (message_text u) = false ->
  get_email cfg env u w =
    (Ok GET_EMAIL,
     {| user_data := user_data w; sheet := sheet w;
        sent := sent w ++ [reply_text invalid_email_text] |}).
Proof. intros H. unfold get_email. rewrite H. reflexivity. Qed.

(** The dictionary the email handler builds from a [user_data] that
    has the name and the address. *)
Lemma build_user_info_ok u w name email :
  user_data w !! "name" = Some name ->
  user_data w !! "email" = Some email ->
  build_user_info u w = (Ok (user_info_of name email (id (effective_user u))), w).
Proof.
  intros Hname Hemail.
  unfold build_user_info, getitem_user_data, getitem, bind, gets, ret.
  rewrite Hname, Hemail. reflexivity.
Qed.

Lemma build_user_info_with_name u w t name :
  user_data w !! "name" = Some name ->
  (setitem_user_data "email" (VStr t) ;;; build_user_info u) w =
    (Ok (user_info_of name (VStr t) (id (effective_user u))),
     {| user_data := <["email" := VStr t]> (user_data w); sheet := sheet w;
        sent := sent w |}).
Proof.
  intros Hname. unfold bind, setitem_user_data, modify.
  apply build_user_info_ok; simpl.
  - now rewrite lookup_insert_ne by discriminate.
  - apply lookup_insert_eq.
Qed.

(** The email handler on a valid address, the name being there: it
    saves, answers by the outcome, clears [user_data] and ends. *)
Lemma get_email_valid env u w name :
  is_valid_email (message_text u) = true ->
  user_data w !! "name" = Some name ->
  exists (b : bool) (sh' : worksheet),
    save_to_google_sheet env
      (user_info_of name (VStr (message_text u)) (id (effective_user u)))
      (sheet w) = (Ok b, sh') /\
    get_email cfg env u w =
      (Ok END,
       {| user_data := ∅; sheet := sh';
          sent := sent w ++
                  [if b then reply_html success_text (Some (invite_keyboard cfg))
                   else reply_text failure_text] |}).
Proof.
  intros Hvalid Hname.
  destruct (save_to_google_sheet_outcome env
              (user_info_of name (VStr (message_text u)) (id (effective_user u)))
              (sheet w)) as (b & sh' & Hsave).
  exists b, sh'. split; [exact Hsave|].
  unfold get_email. rewrite Hvalid. cbn [negb].
  unfold bind at 1. unfold setitem_user_data at 1. unfold modify at 1.
  unfold bind at 1.
  rewrite (build_user_info_ok u _ name (VStr (message_text u)));
    [| simpl; now rewrite lookup_insert_ne by discriminate
     | simpl; apply lookup_insert_eq].
  unfold bind at 1. unfold on_sheet. cbn [sheet user_data sent].
  rewrite Hsave. destruct b; reflexivity.
Qed.

(** The email handler on a valid address when the name is missing: the
    lookup raises, after the address was stored. *)
Lemma get_email_without_name env u w :
  is_valid_email (message_text u) = true ->
  user_data w !! "name" = None ->
  get_email cfg env u w =
    (Raise (KeyError "name"),
     {| user_data := <["email" := VStr (message_text u)]> (user_data w);
        sheet := sheet w; sent := sent w |}).
Proof.
  intros Hvalid Hname. unfold get_email. rewrite Hvalid. cbn [negb].
  unfold build_user_info, getitem_user_data, setitem_user_data, getitem,
    bind, gets, modify, ret. simpl.
  rewrite lookup_insert_ne by discriminate. rewrite Hname. reflexivity.
Qed.

(** One update keeps the invariant "outside a conversation nothing is
    collected"; it needs no assumption on a conversation under way, so
    every step into [END] leaves [user_data] empty. *)
Lemma handle_update_END env u c :
  (state c = END -> user_data (data c) = ∅) ->
  state (handle_update cfg env u c) = END ->
  user_data (data (handle_update cfg env u c)) = ∅.
Proof.
  intros Hinv. unfold handle_update.
  destruct (state c) eqn:Hst, (message u) as [name|t|] eqn:Hmsg;
    try (simpl; intros; congruence).
  - destruct (String.eqb (lower name) "cancel"); [reflexivity | simpl; congruence].
  - destruct (String.eqb (lower name) "cancel"); [reflexivity | simpl; congruence].
  - assert (Ht : message_text u = t) by (unfold message_text; now rewrite Hmsg).
    unfold run_handler.
    destruct (is_valid_email t) eqn:Hv.
    + destruct (user_data (data c) !! "name") as [n|] eqn:Hn.
      * destruct (get_email_valid env u (data c) n) as (b & sh' & _ & ->);
          [now rewrite Ht | assumption | reflexivity].
      * rewrite get_email_without_name by (rewrite ?Ht; assumption).
        simpl. congruence.
    + rewrite get_email_invalid by now rewrite Ht. discriminate.
  - destruct (String.eqb (lower name) "start"); [discriminate | simpl; auto].
  - simpl; auto.
  - simpl; auto.
Qed.

Lemma reachable_END sh tr :
  state (run cfg tr (initial sh)) = END ->
  user_data (data (run cfg tr (initial sh))) = ∅.
Proof.
  induction tr as [|[env u] tr IH] using rev_ind; [reflexivity|].
  rewrite run_snoc. apply handle_update_END, IH.
Qed.

(** A step that ends in [GET_EMAIL] came from [GET_NAME] by a text,
    which is now the name, or from [GET_EMAIL], and left the name alone. *)
Lemma handle_update_GET_EMAIL env u c :
  state (handle_update cfg env u c) = GET_EMAIL ->
  (state c = GET_NAME /\
   exists name, message u = Text name /\
     user_data (data (handle_update cfg env u c)) !! "name" = Some (VStr name))
  \/
  (state c = GET_EMAIL /\
   user_data (data (handle_update cfg env u c)) !! "name" =
     user_data (data c) !! "name").
Proof.
  unfold handle_update.
  destruct (state c) eqn:Hst, (message u) as [name|t|] eqn:Hmsg;
    try (simpl; intros; congruence); try (right; split; reflexivity).
  - destruct (String.eqb (lower name) "cancel"); [discriminate | simpl; congruence].
  - intros _. left. split; [reflexivity|]. exists t. split; [reflexivity|].
    unfold run_handler. simpl. unfold message_text. rewrite Hmsg.
    apply lookup_insert_eq.
  - destruct (String.eqb (lower name) "cancel"); [discriminate | auto].
  - assert (Ht : message_text u = t) by (unfold message_text; now rewrite Hmsg).
    intros H. right. split; [reflexivity|]. revert H. unfold run_handler.
    destruct (is_valid_email t) eqn:Hv.
    + destruct (user_data (data c) !! "name") as [n|] eqn:Hn.
      * destruct (get_email_valid env u (data c) n) as (b & sh' & _ & ->);
          [now rewrite Ht | assumption | discriminate].
      * rewrite get_email_without_name by (rewrite ?Ht; assumption).
        simpl. intros _. rewrite lookup_insert_ne by discriminate. congruence.
    + rewrite get_email_invalid by now rewrite Ht. reflexivity.
  - destruct (String.eqb (lower name) "start"); [discriminate | simpl; congruence].
Qed.

(** With the name in [user_data] the email handler finds it: the
    dictionary it builds carries it, and the handler returns. *)
Lemma name_found w name env u t :
  user_data w !! "name" = Some (VStr name) ->
  message u = Text t -> is_valid_email t = true ->
  fst ((setitem_user_data "email" (VStr t) ;;; build_user_info u) w) =
    Ok (user_info_of (VStr name) (VStr t) (id (effective_user u))) /\
  fst (get_email cfg env u w) = Ok END.
Proof.
  intros Hname Hmsg Hv.
  assert (Ht : message_text u = t) by (unfold message_text; now rewrite Hmsg).
  split.
  - now rewrite (build_user_info_with_name u w t (VStr name)).
  - destruct (get_email_valid env u w (VStr name)) as (b & sh' & _ & ->);
      [now rewrite Ht | assumption | reflexivity].
Qed.

End Conversation.

(** ** Invariants of the conversation *)

Section ConversationMore.

Variable cfg : config.

Lemma message_text_Text u t : message u = Text t -> message_text u = t.
Proof. unfold message_text. now intros ->. Qed.

Lemma record_row_user_info_of env name email uid :
  record_row env (user_info_of name email uid) =
    Some [name; email; VInt uid; VStr (strftime (now env))].
Proof.
  unfold record_row, user_info_of.
  rewrite lookup_insert_eq.
  rewrite (lookup_insert_ne _ "name" "email") by discriminate.
  rewrite lookup_insert_eq.
  rewrite (lookup_insert_ne _ "name" "user_id") by discriminate.
  rewrite (lookup_insert_ne _ "email" "user_id") by discriminate.
  rewrite lookup_insert_eq. reflexivity.
Qed.

(** One update keeps what is collected as the state says. *)
Lemma handle_update_collected env u c :
  collected c -> collected (handle_update cfg env u c).
Proof.
  unfold collected, handle_update.
  destruct (state c) eqn:Hst, (message u) as [name|t|] eqn:Hmsg;
    try (rewrite Hst; tauto).
  - destruct (String.eqb (lower name) "cancel"); [reflexivity | now rewrite Hst].
  - intros Hc. simpl. rewrite Hc. exists (message_text u).
    apply insert_empty.
  - destruct (String.eqb (lower name) "cancel"); [reflexivity | now rewrite Hst].
  - intros [n Hn]. unfold run_handler.
    pose proof (message_text_Text u t Hmsg) as Ht.
    destruct (is_valid_email t) eqn:Hv.
    + destruct (get_email_valid cfg env u (data c) (VStr n)) as (b & sh' & _ & ->);
        [now rewrite Ht | rewrite Hn; apply lookup_singleton_eq | reflexivity].
    + rewrite get_email_invalid by now rewrite Ht. simpl. eauto.
  - destruct (String.eqb (lower name) "start"); [simpl; tauto | now rewrite Hst].
Qed.

Lemma run_collected sh tr : collected (run cfg tr (initial sh)).
Proof.
  induction tr as [|[env u] tr IH] using rev_ind; [reflexivity|].
  rewrite run_snoc. now apply handle_update_collected.
Qed.

(** One update adds to the sheet nothing but the header and the row of
    a registration with a validated address. *)
Lemma handle_update_rows env u c :
  collected c ->
  exists ws,
    sheet (data (handle_update cfg env u c)) = sheet (data c) ++ ws /\
    Forall (fun r => r = headers \/ registration_row r) ws.
Proof.
  assert (Hsame : exists ws, sheet (data c) = sheet (data c) ++ ws /\
            Forall (fun r => r = headers \/ registration_row r) ws)
    by (exists []; rewrite app_nil_r; auto).
  unfold collected, handle_update.
  destruct (state c) eqn:Hst, (message u) as [name|t|] eqn:Hmsg; try (intros; exact Hsame).
  - destruct (String.eqb (lower name) "cancel"); intros; exact Hsame.
  - destruct (String.eqb (lower name) "cancel"); intros; exact Hsame.
  - intros [n Hn]. unfold run_handler.
    pose proof (message_text_Text u t Hmsg) as Ht.
    destruct (is_valid_email t) eqn:Hv.
    + destruct (get_email_valid cfg env u (data c) (VStr n))
        as (b & sh' & Hsave & ->);
        [now rewrite Ht | rewrite Hn; apply lookup_singleton_eq |].
      simpl. rewrite Ht in Hsave.
      destruct (save_cases env (user_info_of (VStr n) (VStr t) (id (effective_user u)))
                  (sheet (data c)))
        as [(r & _ & Hr & Hs) | (s' & _ & Hs & [[-> _] | [-> _]])];
        rewrite Hs in Hsave; injection Hsave as _ <-.
      * rewrite record_row_user_info_of in Hr. injection Hr as <-.
        exists (headers_due env (sheet (data c)) ++
                [[VStr n; VStr t; VInt (id (effective_user u)); VStr (strftime (now env))]]).
        split; [reflexivity|]. apply Forall_app. split.
        -- unfold headers_due.
           destruct (gspread env), (cell_A1 (sheet (data c))); auto.
        -- constructor; [|constructor]. right.
           exists n, t, (id (effective_user u)), (now env). auto.
      * exact Hsame.
      * exists [headers]. auto.
    + rewrite get_email_invalid by now rewrite Ht. exact Hsame.
  - destruct (String.eqb (lower name) "start"); intros; exact Hsame.
Qed.

(** One update sends at most one reply, after those sent before. *)
Lemma handle_update_sent env u c :
  exists rs,
    sent (data (handle_update cfg env u c)) = sent (data c) ++ rs /\
    length rs <= 1.
Proof.
  assert (Hsame : exists rs, sent (data c) = sent (data c) ++ rs /\ length rs <= 1)
    by (exists []; rewrite app_nil_r; auto).
  unfold handle_update.
  destruct (state c) eqn:Hst, (message u) as [name|t|] eqn:Hmsg; try exact Hsame.
  - destruct (String.eqb (lower name) "cancel"); [|exact Hsame]. simpl. eauto.
  - simpl. eauto.
  - destruct (String.eqb (lower name) "cancel"); [|exact Hsame]. simpl. eauto.
  - unfold run_handler.
    pose proof (message_text_Text u t Hmsg) as Ht.
    destruct (is_valid_email t) eqn:Hv.
    + destruct (user_data (data c) !! "name") as [n|] eqn:Hn.
      * destruct (get_email_valid cfg env u (data c) n) as (b & sh' & _ & ->);
          [now rewrite Ht | assumption |]. simpl. eauto.
      * rewrite get_email_without_name by (rewrite ?Ht; assumption). exact Hsame.
    + rewrite get_email_invalid by now rewrite Ht. simpl. eauto.
  - destruct (String.eqb (lower name) "start"); [|exact Hsame]. simpl. eauto.
Qed.

End ConversationMore.

(** C5. In [GET_EMAIL], texts the validator rejects, however many in a
    row, leave the conversation in [GET_EMAIL] with what it had
    collected and the sheet untouched; each gets the notice to try
    again, and nothing else is sent. *)
Theorem invalid_email_reprompts_and_keeps_data
    (cfg : config) (tr : list (store_env * update)) (c : conversation) :
  state c = GET_EMAIL ->
  Forall (fun eu => invalid_email_update (snd eu)) tr ->
  run cfg tr c =
    {| state := GET_EMAIL;
       data := {| user_data := user_data (data c);
                  sheet := sheet (data c);
                  sent := sent (data c) ++
                          replicate (length tr) (reply_text invalid_email_text) |} |}.
Proof.
  revert c. induction tr as [|[env u] tr IH]; intros c Hst Hall.
  - destruct c as [st [ud sh sn]]. simpl in *. subst st.
    now rewrite app_nil_r.
  - apply Forall_cons in Hall as [(t & Hmsg & Hv) Hall]. simpl in Hmsg.
    change (run cfg ((env, u) :: tr) c)
      with (run cfg tr (handle_update cfg env u c)).
    assert (Hstep : handle_update cfg env u c =
              {| state := GET_EMAIL;
                 data := {| user_data := user_data (data c);
                            sheet := sheet (data c);
                            sent := sent (data c) ++ [reply_text invalid_email_text] |} |}).
    { unfold handle_update. rewrite Hst, Hmsg. unfold run_handler.
      rewrite get_email_invalid; [reflexivity|].
      unfold message_text. now rewrite Hmsg. }
    rewrite Hstep, IH by (reflexivity || assumption).
    simpl. now rewrite <- app_assoc.
Qed.

(** C5, witness: after the name "Luca", two rejected addresses. *)
Lemma invalid_email_reprompts_and_keeps_data_witness :
  let c := run sample_cfg [sample_update (Command "start");
                           sample_update (Text "Luca")] (initial []) in
  let tr := [sample_update (Text "not-valid"); sample_update (Text "a@b")] in
  (state c = GET_EMAIL /\ Forall (fun eu => invalid_email_update (snd eu)) tr) /\
  run sample_cfg tr c =
    {| state := GET_EMAIL;
       data := {| user_data := user_data (data c);
                  sheet := sheet (data c);
                  sent := sent (data c) ++
                          replicate (length tr) (reply_text invalid_email_text) |} |}.
Proof.
  intros c tr.
  assert (Hst : state c = GET_EMAIL) by reflexivity.
  assert (Hall : Forall (fun eu => invalid_email_update (snd eu)) tr).
  { repeat constructor; eexists; split; reflexivity. }
  split; [split; assumption|].
  exact (invalid_email_reprompts_and_keeps_data sample_cfg tr c Hst Hall).
Defined.

(** C6. Every terminal transition clears the session. In a conversation
    that awaits the address, a text the validator accepts ends it with
    [user_data] empty whatever the store calls do, so after a saved
    registration and after a failed one alike; [/cancel] ends any
    conversation under way with [user_data] empty; and no step at all
    reaches [END] with something left in [user_data]. So outside a
    conversation nothing is collected, and the [/start] that comes next
    opens [GET_NAME] with nothing collected. *)
Theorem session_cleared_on_terminal_transitions
    (cfg : config) (sh : worksheet) (tr : list (store_env * update)) :
  let c := run cfg tr (initial sh) in
  (forall env u t,
     state c = GET_EMAIL -> message u = Text t -> is_valid_email t = true ->
     state (handle_update cfg env u c) = END /\
     user_data (data (handle_update cfg env u c)) = ∅) /\
  (forall c0 env u name,
     state c0 <> END -> message u = Command name -> lower name = "cancel" ->
     state (handle_update cfg env u c0) = END /\
     user_data (data (handle_update cfg env u c0)) = ∅) /\
  (forall c0 env u,
     state c0 <> END -> state (handle_update cfg env u c0) = END ->
     user_data (data (handle_update cfg env u c0)) = ∅) /\
  (state c = END ->
     user_data (data c) = ∅ /\
     forall env u name, message u = Command name -> lower name = "start" ->
       state (handle_update cfg env u c) = GET_NAME /\
       user_data (data (handle_update cfg env u c)) = ∅).
Proof.
  intros c. split; [|split; [|split]].
  - intros env u t Hst Hmsg Hv.
    pose proof (run_collected cfg sh tr) as Hc. fold c in Hc.
    unfold collected in Hc. rewrite Hst in Hc. destruct Hc as [n Hn].
    unfold handle_update. rewrite Hst, Hmsg. unfold run_handler.
    destruct (get_email_valid cfg env u (data c) (VStr n)) as (b & sh' & _ & ->).
    + now rewrite (message_text_Text u t Hmsg).
    + rewrite Hn. apply lookup_singleton_eq.
    + split; reflexivity.
  - intros c0 env u name Hst Hmsg Hname.
    unfold handle_update. rewrite Hmsg, Hname.
    destruct (state c0); [split; reflexivity | split; reflexivity | contradiction].
  - intros c0 env u Hst. apply handle_update_END. intros H. contradiction.
  - intros Hend. pose proof (reachable_END cfg sh tr Hend) as Hempty.
    split; [exact Hempty|].
    intros env u name Hmsg Hname. unfold handle_update. fold c.
    rewrite Hend, Hmsg, Hname. simpl. auto.
Qed.

(** C6, witness: after the name, an address that is saved, the same
    address when the sheet is not found, and [/cancel]; then a new
    [/start] after the cancelled conversation. *)
Lemma session_cleared_on_terminal_transitions_witness :
  let c1 := run sample_cfg [sample_update (Command "start");
                            sample_update (Text "Luca")] (initial []) in
  let email_u := {| effective_user := sample_user;
                    message := Text "luca@example.com" |} in
  let cancel_u := {| effective_user := sample_user; message := Command "cancel" |} in
  let start_u := {| effective_user := sample_user; message := Command "start" |} in
  let c := run sample_cfg [sample_update (Command "start");
                           sample_update (Text "Luca");
                           sample_update (Command "cancel")] (initial []) in
  (state c1 = GET_EMAIL /\ message email_u = Text "luca@example.com" /\
   is_valid_email "luca@example.com" = true /\
   fst (save_to_google_sheet (no_fault sample_time)
          (user_info_of (VStr "Luca") (VStr "luca@example.com") 42) []) = Ok true /\
   fst (save_to_google_sheet sheet_not_found
          (user_info_of (VStr "Luca") (VStr "luca@example.com") 42) []) = Ok false /\
   state c1 <> END /\ message cancel_u = Command "cancel" /\
   lower "cancel" = "cancel" /\
   state c = END /\ message start_u = Command "start" /\ lower "start" = "start") /\
  (state (handle_update sample_cfg (no_fault sample_time) email_u c1) = END /\
   user_data (data (handle_update sample_cfg (no_fault sample_time) email_u c1)) = ∅) /\
  (state (handle_update sample_cfg sheet_not_found email_u c1) = END /\
   user_data (data (handle_update sample_cfg sheet_not_found email_u c1)) = ∅) /\
  (state (handle_update sample_cfg (no_fault sample_time) cancel_u c1) = END /\
   user_data (data (handle_update sample_cfg (no_fault sample_time) cancel_u c1)) = ∅) /\
  user_data (data c) = ∅ /\
  state (handle_update sample_cfg (no_fault sample_time) start_u c) = GET_NAME /\
  user_data (data (handle_update sample_cfg (no_fault sample_time) start_u c)) = ∅.
Proof.
  intros c1 email_u cancel_u start_u c.
  assert (H1 : state c1 = GET_EMAIL) by reflexivity.
  assert (H2 : message email_u = Text "luca@example.com") by reflexivity.
  assert (H3 : is_valid_email "luca@example.com" = true) by reflexivity.
  assert (H4 : fst (save_to_google_sheet (no_fault sample_time)
                      (user_info_of (VStr "Luca") (VStr "luca@example.com") 42) []) =
               Ok true) by reflexivity.
  assert (H5 : fst (save_to_google_sheet sheet_not_found
                      (user_info_of (VStr "Luca") (VStr "luca@example.com") 42) []) =
               Ok false) by reflexivity.
  assert (H6 : state c1 <> END) by discriminate.
  assert (H7 : message cancel_u = Command "cancel") by reflexivity.
  assert (H8 : lower "cancel" = "cancel") by reflexivity.
  assert (H9 : state c = END) by reflexivity.
  assert (H10 : message start_u = Command "start") by reflexivity.
  assert (H11 : lower "start" = "start") by reflexivity.
  pose proof (session_cleared_on_terminal_transitions sample_cfg []
                [sample_update (Command "start"); sample_update (Text "Luca")])
    as (Hsave & Hcancel & _ & _).
  pose proof (session_cleared_on_terminal_transitions sample_cfg []
                [sample_update (Command "start"); sample_update (Text "Luca");
                 sample_update (Command "cancel")])
    as (_ & _ & _ & Hreach).
  destruct (Hreach H9) as [Hempty Hstart].
  split.
  { exact (conj H1 (conj H2 (conj H3 (conj H4 (conj H5 (conj H6 (conj H7
             (conj H8 (conj H9 (conj H10 H11)))))))))). }
  split; [exact (Hsave (no_fault sample_time) email_u _ H1 H2 H3)|].
  split; [exact (Hsave sheet_not_found email_u _ H1 H2 H3)|].
  split; [exact (Hcancel c1 (no_fault sample_time) cancel_u _ H6 H7 H8)|].
  split; [exact Hempty|].
  exact (Hstart (no_fault sample_time) start_u _ H10 H11).
Defined.

(** C8. A valid address in [GET_EMAIL], the name being there: the
    adapter returns a boolean and the conversation ends. On [True] the
    reply is the success message with one button whose link is the
    invite link of the configuration. On [False] the reply is the one
    fixed notice of a technical problem: a plain text without any link,
    the same whatever made the adapter fail. *)
Theorem reply_follows_adapter_result
    (cfg : config) (env : store_env) (u : update) (c : conversation)
    (t : string) (name : pyval) :
  state c = GET_EMAIL ->
  message u = Text t ->
  is_valid_email t = true ->
  user_data (data c) !! "name" = Some name ->
  exists (b : bool) (sh' : worksheet),
    save_to_google_sheet env (user_info_of name (VStr t) (id (effective_user u)))
      (sheet (data c)) = (Ok b, sh') /\
    handle_update cfg env u c =
      {| state := END;
         data := {| user_data := ∅; sheet := sh';
                    sent := sent (data c) ++
                      [if b then reply_html success_text (Some (invite_keyboard cfg))
                       else reply_text failure_text] |} |} /\
    reply_links (reply_html success_text (Some (invite_keyboard cfg))) =
      [GROUP_INVITE_LINK cfg] /\
    reply_links (reply_text failure_text) = [].
Proof.
  intros Hst Hmsg Hv Hname.
  assert (Ht : message_text u = t) by (unfold message_text; now rewrite Hmsg).
  destruct (get_email_valid cfg env u (data c) name) as (b & sh' & Hsave & Hget);
    [now rewrite Ht | assumption |].
  rewrite Ht in Hsave. exists b, sh'. split; [exact Hsave|].
  split; [|split; reflexivity].
  unfold handle_update. rewrite Hst, Hmsg. unfold run_handler.
  now rewrite Hget.
Qed.

(** C8, witness: the name "Anna", her address, and a sheet that is not
    found. *)
Lemma reply_follows_adapter_result_witness :
  let c := run sample_cfg [sample_update (Command "start");
                           sample_update (Text "Anna")] (initial []) in
  let u := {| effective_user := sample_user; message := Text "anna@example.com" |} in
  (state c = GET_EMAIL /\ message u = Text "anna@example.com" /\
   is_valid_email "anna@example.com" = true /\
   user_data (data c) !! "name" = Some (VStr "Anna")) /\
  exists (b : bool) (sh' : worksheet),
    save_to_google_sheet sheet_not_found
      (user_info_of (VStr "Anna") (VStr "anna@example.com") (id (effective_user u)))
      (sheet (data c)) = (Ok b, sh') /\
    handle_update sample_cfg sheet_not_found u c =
      {| state := END;
         data := {| user_data := ∅; sheet := sh';
                    sent := sent (data c) ++
                      [if b then reply_html success_text (Some (invite_keyboard sample_cfg))
                       else reply_text failure_text] |} |} /\
    reply_links (reply_html success_text (Some (invite_keyboard sample_cfg))) =
      [GROUP_INVITE_LINK sample_cfg] /\
    reply_links (reply_text failure_text) = [].
Proof.
  intros c u.
  assert (H1 : state c = GET_EMAIL) by reflexivity.
  assert (H2 : message u = Text "anna@example.com") by reflexivity.
  assert (H3 : is_valid_email "anna@example.com" = true) by reflexivity.
  assert (H4 : user_data (data c) !! "name" = Some (VStr "Anna")) by reflexivity.
  split; [repeat split; assumption|].
  exact (reply_follows_adapter_result sample_cfg sheet_not_found u c
           "anna@example.com" (VStr "Anna") H1 H2 H3 H4).
Defined.

(** C9. Whenever the conversation is in [GET_EMAIL], [user_data] holds
    under ["name"] the text its own [GET_NAME] step received, so the
    lookup of the email handler does not fail and the registration it
    builds carries that name. *)
Theorem name_is_there_in_GET_EMAIL
    (cfg : config) (sh : worksheet) (tr : list (store_env * update)) :
  state (run cfg tr (initial sh)) = GET_EMAIL -> name_kept cfg sh tr.
Proof.
  unfold name_kept.
  induction tr as [|[e1 u1] tr IH] using rev_ind; [discriminate|].
  rewrite run_snoc. intros Hst.
  destruct (handle_update_GET_EMAIL cfg e1 u1 _ Hst)
    as [(Hprev & name & Hmsg & Hname) | (Hprev & Hname)].
  - exists tr, e1, u1, name, []. repeat split; auto.
    + intros rest1 rest2 Hnil. symmetry in Hnil.
      apply app_eq_nil in Hnil as [-> _]. now rewrite run_snoc.
    + eapply name_found; eauto.
    + eapply name_found; eauto.
  - destruct (IH Hprev) as (tr0 & e & u & name & rest & Htr & H0 & Hmsg & Hmid & Hn & _).
    exists tr0, e, u, name, (rest ++ [(e1, u1)]).
    rewrite Hname, Hn. repeat split; auto.
    + rewrite Htr, <- app_assoc. reflexivity.
    + intros rest1 rest2 Hsplit.
      destruct rest2 as [|x rest2 _] using rev_ind.
      * rewrite app_nil_r in Hsplit. subst rest1.
        replace (tr0 ++ (e, u) :: rest ++ [(e1, u1)])
          with (tr ++ [(e1, u1)]) by (rewrite Htr, <- app_assoc; reflexivity).
        now rewrite run_snoc.
      * rewrite app_assoc in Hsplit. apply app_inj_tail in Hsplit as [Hrest _].
        eapply Hmid, Hrest.
    + eapply name_found; eauto. now rewrite Hname, Hn.
    + eapply name_found; eauto. now rewrite Hname, Hn.
Qed.

(** C9, witness: the name "Luca" and then a rejected address. *)
Lemma name_is_there_in_GET_EMAIL_witness :
  let tr := [sample_update (Command "start"); sample_update (Text "Luca");
             sample_update (Text "not-valid")] in
  state (run sample_cfg tr (initial [])) = GET_EMAIL /\ name_kept sample_cfg [] tr.
Proof.
  intros tr.
  assert (H : state (run sample_cfg tr (initial [])) = GET_EMAIL) by reflexivity.
  split; [exact H|].
  exact (name_is_there_in_GET_EMAIL sample_cfg [] tr H).
Defined.

(** * Further properties of [bot.py] *)

(** ** More on the validator *)

Section ValidatorMore.

Lemma list_ascii_of_string_app (a b : string) :
  list_ascii_of_string (a +:+ b) = list_ascii_of_string a ++ list_ascii_of_string b.
Proof. induction a as [|c a IH]; simpl; [reflexivity | now rewrite IH]. Qed.

Lemma string_of_list_ascii_app (a b : list ascii) :
  string_of_list_ascii (a ++ b) = string_of_list_ascii a +:+ string_of_list_ascii b.
Proof. induction a as [|c a IH]; simpl; [reflexivity | now rewrite IH]. Qed.

Lemma count_occ_forallb (f : ascii -> bool) (c : ascii) (l : list ascii) :
  forallb f l = true -> f c = false -> count_occ ascii_dec l c = 0.
Proof.
  intros Hl Hc. induction l as [|d l IH]; simpl; [reflexivity|].
  simpl in Hl. apply andb_true_iff in Hl as [Hd Hl].
  destruct (ascii_dec d c) as [-> | _]; [congruence | now apply IH].
Qed.

Lemma domain_char_local c : domain_char c = true -> local_char c = true.
Proof. destruct c as [[] [] [] [] [] [] [] []]; vm_compute; auto. Qed.

Lemma is_alpha_local c : is_alpha c = true -> local_char c = true.
Proof. destruct c as [[] [] [] [] [] [] [] []]; vm_compute; auto. Qed.

Lemma forallb_impl_bool (f g : ascii -> bool) (l : list ascii) :
  (forall c, f c = true -> g c = true) -> forallb f l = true -> forallb g l = true.
Proof.
  intros Hfg. induction l as [|c l IH]; simpl; [reflexivity|].
  intros H. apply andb_true_iff in H as [Hc Hl].
  now rewrite (Hfg c Hc), IH.
Qed.

(** The count of [@] in an address of the shape. *)
Lemma email_shape_count_at l :
  email_shape_chars l -> count_occ ascii_dec l "@"%char = 1.
Proof.
  intros (a & d & t & -> & _ & Ha & _ & Hd & _ & Ht).
  rewrite count_occ_app, (count_occ_forallb local_char) by (assumption || reflexivity).
  rewrite count_occ_cons_eq by reflexivity.
  rewrite count_occ_app, (count_occ_forallb domain_char) by (assumption || reflexivity).
  rewrite count_occ_cons_neq by discriminate.
  rewrite (count_occ_forallb is_alpha) by (assumption || reflexivity).
  reflexivity.
Qed.

(** The characters of an address of the shape. *)
Lemma email_shape_allowed l :
  email_shape_chars l ->
  forallb (fun c => local_char c || Ascii.eqb c "@") l = true.
Proof.
  intros (a & d & t & -> & _ & Ha & _ & Hd & _ & Ht).
  rewrite forallb_app. simpl. rewrite forallb_app. simpl.
  rewrite (forallb_impl_bool local_char) by (assumption || (intros c ->; reflexivity)).
  rewrite (forallb_impl_bool domain_char)
    by (assumption || (intros c Hc; now rewrite (domain_char_local c Hc))).
  rewrite (forallb_impl_bool is_alpha)
    by (assumption || (intros c Hc; now rewrite (is_alpha_local c Hc))).
  reflexivity.
Qed.

End ValidatorMore.

(** X1. What the validator accepts, exactly: the addresses of the shape
    [local@domain.tld], and each of them followed by one line feed. *)
Theorem is_valid_email_exactly (s : string) :
  is_valid_email s = true <->
  email_shape s \/ exists s0, s = s0 +:+ nl /\ email_shape s0.
Proof.
  rewrite is_valid_email_chars. unfold email_shape. split.
  - intros [H | (l0 & Hs & H)]; [now left | right].
    exists (string_of_list_ascii l0). split.
    + rewrite <- (string_of_list_ascii_of_string s), Hs.
      apply string_of_list_ascii_app.
    + now rewrite list_ascii_of_string_of_list_ascii.
  - intros [H | (s0 & -> & H)]; [now left | right].
    exists (list_ascii_of_string s0). split; [|assumption].
    apply list_ascii_of_string_app.
Qed.

(** X2. An accepted text has exactly one [@]. *)
Theorem is_valid_email_one_at (s : string) :
  is_valid_email s = true -> count_at s = 1.
Proof.
  unfold count_at. intros H. apply is_valid_email_chars in H as [H | (l0 & -> & H)].
  - now apply email_shape_count_at.
  - rewrite count_occ_app, (email_shape_count_at l0 H). reflexivity.
Qed.

(** X2, witness. *)
Lemma is_valid_email_one_at_witness :
  is_valid_email "maria@example.com" = true /\ count_at "maria@example.com" = 1.
Proof.
  assert (H : is_valid_email "maria@example.com" = true) by reflexivity.
  split; [exact H | exact (is_valid_email_one_at "maria@example.com" H)].
Defined.

(** X3. A text with any character other than the ASCII letters and
    digits, [. _ % + - @] and the line feed is rejected: a space before or
    after the address, a comma, an accented letter. *)
Theorem is_valid_email_rejects_other_characters (s : string) (c : ascii) :
  In c (list_ascii_of_string s) ->
  local_char c || Ascii.eqb c "@" || Ascii.eqb c "010" = false ->
  is_valid_email s = false.
Proof.
  intros Hin Hc. destruct (is_valid_email s) eqn:Hv; [exfalso | reflexivity].
  apply orb_false_iff in Hc as [Hc Hlf].
  assert (Hall : forall l, email_shape_chars l -> In c l -> False).
  { intros l Hl Hcl. apply email_shape_allowed in Hl.
    rewrite forallb_forall in Hl. specialize (Hl c Hcl). congruence. }
  apply is_valid_email_chars in Hv as [H | (l0 & Hs & H)].
  - exact (Hall _ H Hin).
  - rewrite Hs in Hin. apply in_app_or in Hin as [Hin | [<- | []]].
    + exact (Hall _ H Hin).
    + discriminate Hlf.
Qed.

(** X3, witness: a space after the address. *)
Lemma is_valid_email_rejects_other_characters_witness :
  (In " "%char (list_ascii_of_string "maria@example.com ") /\
   local_char " " || Ascii.eqb " " "@" || Ascii.eqb " " "010" = false) /\
  is_valid_email "maria@example.com " = false.
Proof.
  assert (H1 : In " "%char (list_ascii_of_string "maria@example.com "))
    by (simpl; tauto).
  assert (H2 : local_char " " || Ascii.eqb " " "@" || Ascii.eqb " " "010" = false)
    by reflexivity.
  split; [split; assumption|].
  exact (is_valid_email_rejects_other_characters "maria@example.com " " " H1 H2).
Defined.

(** ** More on the adapter *)

Section AdapterMore.

Variables (user_info : gmap string pyval) (sh : worksheet).

Lemma fails_erase f f' : fails f = fails f' -> erase_fault f = erase_fault f'.
Proof. destruct f, f'; simpl; intros H; congruence. Qed.

Lemma same_failures_erase e1 e2 : same_failures e1 e2 -> erase e1 = erase e2.
Proof.
  intros (Hv & H1 & H2 & H3 & H4 & H5 & H6 & H7 & Hn). unfold erase.
  rewrite (fails_erase _ _ H1), (fails_erase _ _ H2), (fails_erase _ _ H3),
    (fails_erase _ _ H4), (fails_erase _ _ H5), (fails_erase _ _ H6),
    (fails_erase _ _ H7), Hn, Hv.
  reflexivity.
Qed.

(** The adapter does not look at the exception it catches. *)
Lemma save_erase env :
  save_to_google_sheet env user_info sh =
  save_to_google_sheet (erase env) user_info sh.
Proof.
  rewrite !save_unfold. unfold save_body.
  destruct env as [lib f1 f2 f3 f4 f5 f6 f7 t]; simpl.
  destruct f1; [reflexivity|]. destruct f2; [reflexivity|].
  destruct f3; [reflexivity|]. destruct f4; [reflexivity|].
  destruct f5; [reflexivity|].
  unfold bind, call, sheet_get_A1, append_row, getitem, gets, modify, ret, raise.
  simpl.
  destruct (cell_A1 sh); destruct lib; simpl;
    try (destruct f6; [reflexivity|]; simpl);
    (destruct (user_info !! "name"); [|reflexivity]);
    (destruct (user_info !! "email"); [|reflexivity]);
    (destruct (user_info !! "user_id"); [|reflexivity]);
    destruct f7; reflexivity.
Qed.

End AdapterMore.

(** X4. The adapter is blind to the exception: two runs in which the
    same calls fail, with whatever exceptions, return the same boolean
    and leave the same sheet. *)
Theorem save_to_google_sheet_exception_blind
    (e1 e2 : store_env) (user_info : gmap string pyval) (sh : worksheet) :
  same_failures e1 e2 ->
  save_to_google_sheet e1 user_info sh = save_to_google_sheet e2 user_info sh.
Proof.
  intros H. rewrite (save_erase user_info sh e1), (save_erase user_info sh e2).
  now rewrite (same_failures_erase e1 e2 H).
Qed.

(** X4, witness: the sheet not found, or an API error, when it is opened. *)
Lemma save_to_google_sheet_exception_blind_witness :
  let api_error :=
    {| gspread := gspread_6;
       fault_credentials := None; fault_authorize := None;
       fault_open_by_key := Some (APIError "quota"); fault_sheet1 := None;
       fault_get := None; fault_append_headers := None;
       fault_append_new_row := None; now := sample_time |} in
  same_failures sheet_not_found api_error /\
  save_to_google_sheet sheet_not_found sample_info [] =
    save_to_google_sheet api_error sample_info [].
Proof.
  intros api_error.
  assert (H : same_failures sheet_not_found api_error)
    by (repeat split; reflexivity).
  split; [exact H|].
  exact (save_to_google_sheet_exception_blind sheet_not_found api_error
           sample_info [] H).
Defined.

(** X5. A run that fails before its first write leaves the sheet as it
    was: when one of the calls up to the read of A1 raises, and when the
    header is due (A1 empty, read by [gspread_5] as an empty list) and
    its [append_row] raises. *)
Theorem save_to_google_sheet_fails_before_writing
    (env : store_env) (user_info : gmap string pyval) (sh : worksheet) :
  ~ connects env \/ (header_due env sh /\ fault_append_headers env <> None) ->
  save_to_google_sheet env user_info sh = (Ok false, sh).
Proof.
  intros H.
  destruct (save_cases env user_info sh)
    as [(r & (Hc & Hh & _) & _) | (s' & _ & -> & [[-> _] | [_ (Hc & Hd & Hf)]])].
  - destruct H as [H | [Hd Hf]]; [contradiction | now apply Hh in Hd].
  - reflexivity.
  - destruct H as [H | [_ H]]; contradiction.
Qed.

(** X5, witness. *)
Lemma save_to_google_sheet_fails_before_writing_witness :
  (~ connects sheet_not_found \/
   (header_due sheet_not_found [] /\ fault_append_headers sheet_not_found <> None)) /\
  save_to_google_sheet sheet_not_found sample_info [] = (Ok false, []).
Proof.
  assert (H : ~ connects sheet_not_found \/
              (header_due sheet_not_found [] /\
               fault_append_headers sheet_not_found <> None)).
  { left. intros (_ & _ & H & _). discriminate H. }
  split; [exact H|].
  exact (save_to_google_sheet_fails_before_writing sheet_not_found sample_info [] H).
Defined.

(** X6. A run that gets to the data row and fails there, by a dictionary
    without one of its keys or by an [append_row] that raises, returns
    [False] and leaves what it had written: the header when it was due,
    which takes [gspread_5] and an empty A1, and nothing otherwise. *)
Theorem save_to_google_sheet_fails_at_data_row
    (env : store_env) (user_info : gmap string pyval) (sh : worksheet) :
  connects env ->
  (header_due env sh -> fault_append_headers env = None) ->
  record_row env user_info = None \/ fault_append_new_row env <> None ->
  save_to_google_sheet env user_info sh = (Ok false, sh ++ headers_due env sh).
Proof.
  intros Hc Hh Hrow.
  assert (Hd : header_due env sh \/ ~ header_due env sh).
  { unfold header_due. destruct (gspread env), (cell_A1 sh); auto;
      right; intros [? ?]; congruence. }
  destruct (save_cases env user_info sh)
    as [(r & (_ & _ & Hr & Hf) & _) | (s' & _ & -> & [[-> Hw] | [-> Hw]])].
  - destruct Hrow as [Hrow | Hrow]; [|contradiction].
    rewrite Hrow in Hr. destruct Hr as [? Hr]. discriminate Hr.
  - destruct Hd as [Hd | Hd].
    + exfalso. apply Hw. exact (conj Hc (conj Hd (Hh Hd))).
    + now rewrite headers_due_not_due, app_nil_r.
  - destruct Hw as (_ & Hd' & _). now rewrite headers_due_due.
Qed.

(** X6, witness: the dictionary has no name, under either library. *)
Lemma save_to_google_sheet_fails_at_data_row_witness :
  (connects (no_fault sample_time) /\
   (header_due (no_fault sample_time) [] ->
    fault_append_headers (no_fault sample_time) = None) /\
   (record_row (no_fault sample_time) (delete "name" sample_info) = None \/
    fault_append_new_row (no_fault sample_time) <> None)) /\
  save_to_google_sheet (no_fault sample_time) (delete "name" sample_info) [] =
    (Ok false, [] ++ headers_due (no_fault sample_time) []) /\
  save_to_google_sheet (with_gspread gspread_5 (no_fault sample_time))
    (delete "name" sample_info) [] =
    (Ok false, [] ++ headers_due (with_gspread gspread_5 (no_fault sample_time)) []).
Proof.
  assert (H1 : connects (no_fault sample_time)) by (repeat split; reflexivity).
  assert (H2 : header_due (no_fault sample_time) [] ->
               fault_append_headers (no_fault sample_time) = None)
    by (intros _; reflexivity).
  assert (H3 : record_row (no_fault sample_time) (delete "name" sample_info) = None \/
               fault_append_new_row (no_fault sample_time) <> None)
    by (left; reflexivity).
  split; [exact (conj H1 (conj H2 H3))|]. split.
  - exact (save_to_google_sheet_fails_at_data_row (no_fault sample_time)
             (delete "name" sample_info) [] H1 H2 H3).
  - apply (save_to_google_sheet_fails_at_data_row
             (with_gspread gspread_5 (no_fault sample_time))
             (delete "name" sample_info) []);
      [repeat split; reflexivity | intros _; reflexivity | left; reflexivity].
Defined.



(** ** The adapter and its log *)

Ltac log_leaf infos :=
  exists infos; rewrite ?app_nil_r, <- ?app_assoc; repeat split; simpl in *;
  unfold save_done, save_header_added in *;
  try reflexivity; try solve [intuition (try congruence)].

Section AdapterLog.

Variables (cfg : config) (env : store_env) (user_info : gmap string pyval)
  (sh : worksheet) (logs : list log_record).

(** Each [except] clause logs one error and returns [False]. *)
Lemma handle_logged (e : exc) (s : worksheet) (l : list log_record) :
  handle
    [ (CSpreadsheetNotFound,
       fun _ => with_log (logger_error (save_not_found cfg)) ;;; ret false);
      (CAPIError,
       fun e => with_log (logger_error (save_api_error e)) ;;; ret false);
      (CException,
       fun e => with_log (logger_error (save_generic_error e)) ;;; ret false) ]
    e (s, l) = (Ok false, (s, l ++ [save_error_record cfg e])).
Proof. destruct e; reflexivity. Qed.

Lemma save_logged_unfold :
  save_to_google_sheet_logged cfg env user_info (sh, logs) =
  match save_body_logged env user_info (sh, logs) with
  | (Ok b, s') => (Ok b, s')
  | (Raise e, (sh', l')) => (Ok false, (sh', l' ++ [save_error_record cfg e]))
  end.
Proof.
  unfold save_to_google_sheet_logged, try_except.
  destruct (save_body_logged env user_info (sh, logs)) as [[b|e] [sh' l']];
    [reflexivity|].
  apply handle_logged.
Qed.

(** The body with the log does to the sheet what the body without it
    does, and logs information only: that the header was added, when it
    was, and that the user was saved, when the run went through. *)
Lemma save_body_logged_cases :
  exists infos,
    save_body_logged env user_info (sh, logs) =
      (fst (save_body env user_info sh),
       (snd (save_body env user_info sh), logs ++ infos)) /\
    errors infos = [] /\
    (In {| levelname := INFO; pieces := save_header_added |} infos <->
     header_written env sh) /\
    (fst (save_body env user_info sh) = Ok true ->
       exists name, user_info !! "name" = Some name /\
         last infos = Some {| levelname := INFO; pieces := save_done name |}).
Proof.
  unfold save_body_logged, save_body, header_written, header_due, connects.
  destruct env as [lib f1 f2 f3 f4 f5 f6 f7 t]; simpl.
  destruct f1; [log_leaf (@nil log_record)|].
  destruct f2; [log_leaf (@nil log_record)|].
  destruct f3; [log_leaf (@nil log_record)|].
  destruct f4; [log_leaf (@nil log_record)|].
  destruct f5; [log_leaf (@nil log_record)|].
  unfold bind, call, with_sheet, with_log, logger_info, sheet_get_A1, append_row,
    getitem, gets, modify, ret, raise.
  simpl.
  destruct (cell_A1 sh) as [v|] eqn:HA; destruct lib; simpl.
  - destruct (user_info !! "name") as [name|] eqn:Hname; simpl;
      [|log_leaf (@nil log_record)].
    destruct (user_info !! "email"); simpl; [|log_leaf (@nil log_record)].
    destruct (user_info !! "user_id"); simpl; [|log_leaf (@nil log_record)].
    destruct f7; simpl; [log_leaf (@nil log_record)|].
    log_leaf [{| levelname := INFO; pieces := save_done name |}].
    all: intros _; exists name; split; reflexivity.
  - destruct (user_info !! "name") as [name|] eqn:Hname; simpl;
      [|log_leaf (@nil log_record)].
    destruct (user_info !! "email"); simpl; [|log_leaf (@nil log_record)].
    destruct (user_info !! "user_id"); simpl; [|log_leaf (@nil log_record)].
    destruct f7; simpl; [log_leaf (@nil log_record)|].
    log_leaf [{| levelname := INFO; pieces := save_done name |}].
    all: intros _; exists name; split; reflexivity.
  - destruct f6; simpl; [log_leaf (@nil log_record)|].
    destruct (user_info !! "name") as [name|] eqn:Hname; simpl;
      [|log_leaf [{| levelname := INFO; pieces := save_header_added |}]].
    destruct (user_info !! "email"); simpl;
      [|log_leaf [{| levelname := INFO; pieces := save_header_added |}]].
    destruct (user_info !! "user_id"); simpl;
      [|log_leaf [{| levelname := INFO; pieces := save_header_added |}]].
    destruct f7; simpl;
      [log_leaf [{| levelname := INFO; pieces := save_header_added |}]|].
    log_leaf [{| levelname := INFO; pieces := save_header_added |};
              {| levelname := INFO; pieces := save_done name |}].
    all: intros _; exists name; split; reflexivity.
  - destruct (user_info !! "name") as [name|] eqn:Hname; simpl;
      [|log_leaf (@nil log_record)].
    destruct (user_info !! "email"); simpl; [|log_leaf (@nil log_record)].
    destruct (user_info !! "user_id"); simpl; [|log_leaf (@nil log_record)].
    destruct f7; simpl; [log_leaf (@nil log_record)|].
    log_leaf [{| levelname := INFO; pieces := save_done name |}].
    all: intros _; exists name; split; reflexivity.
Qed.

End AdapterLog.

(** X8. Logging changes nothing else: the adapter with its calls to
    [logger] returns what the adapter without them returns and leaves
    the same sheet, and it keeps the records logged before. *)
Theorem save_to_google_sheet_logged_same_result
    (cfg : config) (env : store_env) (user_info : gmap string pyval)
    (sh : worksheet) (logs : list log_record) :
  exists new,
    save_to_google_sheet_logged cfg env user_info (sh, logs) =
      (fst (save_to_google_sheet env user_info sh),
       (snd (save_to_google_sheet env user_info sh), logs ++ new)).
Proof.
  rewrite save_logged_unfold, save_unfold.
  destruct (save_body_logged_cases env user_info sh logs) as (infos & -> & _).
  destruct (save_body env user_info sh) as [[b|e] s']; simpl.
  - now exists infos.
  - exists (infos ++ [save_error_record cfg e]). now rewrite app_assoc.
Qed.

(** X9. What the adapter logs. A run that returns [True] logs no error
    and ends with the record that the user was saved. A run that returns
    [False] logs exactly one error, as its last record, chosen by the
    exception that stopped it: the sheet not found, an API error, or the
    generic one (which a missing key of the dictionary gets as well).
    That the header was added is logged exactly when it was: when the
    run got as far as the header and the header was due, which takes
    [gspread_5] and an empty A1. *)
Theorem save_to_google_sheet_logged_records
    (cfg : config) (env : store_env) (user_info : gmap string pyval)
    (sh : worksheet) (logs : list log_record) :
  exists (b : bool) (sh' : worksheet) (new : list log_record),
    save_to_google_sheet_logged cfg env user_info (sh, logs) =
      (Ok b, (sh', logs ++ new)) /\
    (b = true ->
       errors new = [] /\
       exists name, user_info !! "name" = Some name /\
         last new = Some {| levelname := INFO; pieces := save_done name |}) /\
    (b = false ->
       exists e, fst (save_body env user_info sh) = Raise e /\
         errors new = [save_error_record cfg e] /\
         last new = Some (save_error_record cfg e)) /\
    (In {| levelname := INFO; pieces := save_header_added |} new <->
     header_written env sh).
Proof.
  rewrite save_logged_unfold.
  destruct (save_body_logged_cases env user_info sh logs)
    as (infos & -> & Herr & Hhdr & Hlast).
  destruct (save_body_cases env user_info sh)
    as [(r & _ & _ & Hs) | (e & s' & _ & Hs & _)]; rewrite Hs in *; simpl in *.
  - exists true, (sh ++ headers_due env sh ++ [r]), infos.
    split; [reflexivity|]. split; [auto|]. split; [discriminate | exact Hhdr].
  - exists false, s', (infos ++ [save_error_record cfg e]).
    split; [now rewrite app_assoc|]. split; [discriminate|]. split.
    + intros _. exists e. split; [reflexivity|]. split.
      * unfold errors in *. rewrite filter_app, Herr. reflexivity.
      * apply last_snoc.
    + rewrite <- Hhdr, in_app_iff. simpl. split; [|tauto].
      intros [H | [H | []]]; [exact H|].
      apply (f_equal levelname) in H. discriminate H.
Qed.

(** ** The start-up check *)

Ltac debug_leaf :=
  eexists; split;
    [ rewrite <- ?app_assoc; simpl; reflexivity
    | simpl; repeat split; eauto ].

Section Debug.

Variables (cfg : config) (logs : list log_record).

(** What one run of the check logs, by the first exception it meets. *)
Lemma debug_google_access_cases (env : debug_env) :
  exists new,
    debug_google_access cfg env logs =
      (Ok tt, logs ++ {| levelname := INFO; pieces := debug_banner |} :: new) /\
    match debug_fault env with
    | None =>
        exists t, title env = Ok t /\
          new = [ {| levelname := INFO; pieces := debug_attempt cfg |};
                  {| levelname := INFO; pieces := debug_success t |};
                  {| levelname := INFO; pieces := debug_end |} ]
    | Some SpreadsheetNotFound =>
        errors new = [ {| levelname := ERROR; pieces := debug_not_found cfg |};
                       {| levelname := ERROR; pieces := debug_advice |} ] /\
        last new = Some {| levelname := INFO; pieces := debug_end |}
    | Some e =>
        errors new = [ {| levelname := ERROR; pieces := debug_unexpected e |} ] /\
        last new = Some {| levelname := ERROR; pieces := debug_unexpected e |}
    end.
Proof.
  destruct env as [[lib f1 f2 f3 f4 f5 f6 f7 t] ti].
  unfold debug_google_access, debug_fault, try_except, bind, call, read_title,
    logger_info, logger_error, modify, ret, raise.
  simpl.
  destruct f1 as [[]|]; try debug_leaf.
  destruct f2 as [[]|]; try debug_leaf.
  destruct f3 as [[]|]; try debug_leaf.
  destruct ti as [ti|[]]; debug_leaf.
Qed.

End Debug.

(** X10. The start-up check never raises, whatever the calls to the
    store do: it returns, having added to the log its banner and what
    follows, and nothing else; the records logged before stay. *)
Theorem debug_google_access_never_raises
    (cfg : config) (env : debug_env) (logs : list log_record) :
  exists new,
    debug_google_access cfg env logs =
      (Ok tt, logs ++ {| levelname := INFO; pieces := debug_banner |} :: new).
Proof.
  destruct (debug_google_access_cases cfg logs env) as (new & H & _).
  now exists new.
Qed.

(** X11. What the start-up check logs. When every call returns: the
    attempt, the success with the title of the sheet, the closing line,
    and no error. When the sheet is not found: two errors, then the
    closing line. On any other exception: one error that carries the
    exception, as the last record, so without the closing line. *)
Theorem debug_google_access_records
    (cfg : config) (env : debug_env) (logs : list log_record) :
  exists new,
    snd (debug_google_access cfg env logs) =
      logs ++ {| levelname := INFO; pieces := debug_banner |} :: new /\
    match debug_fault env with
    | None =>
        exists t, title env = Ok t /\
          new = [ {| levelname := INFO; pieces := debug_attempt cfg |};
                  {| levelname := INFO; pieces := debug_success t |};
                  {| levelname := INFO; pieces := debug_end |} ]
    | Some SpreadsheetNotFound =>
        errors new = [ {| levelname := ERROR; pieces := debug_not_found cfg |};
                       {| levelname := ERROR; pieces := debug_advice |} ] /\
        last new = Some {| levelname := INFO; pieces := debug_end |}
    | Some e =>
        errors new = [ {| levelname := ERROR; pieces := debug_unexpected e |} ] /\
        last new = Some {| levelname := ERROR; pieces := debug_unexpected e |}
    end.
Proof.
  destruct (debug_google_access_cases cfg logs env) as (new & H & Hcase).
  exists new. rewrite H. split; [reflexivity | exact Hcase].
Qed.

(** ** The configuration *)

(** X12. The module loads exactly when the token, the invite link and
    the id of the sheet are all set and not empty; the settings are then
    the values of the three variables, and the credentials file is the
    value of its variable, empty if set empty, and [credentials.json]
    when it is not set. In every other case the [ValueError] is raised. *)
Theorem load_config_succeeds_iff
    (environ : gmap string string) (cfg : config) (file : string) :
  load_config environ = inr (cfg, file) <->
  environ !! "TELEGRAM_BOT_TOKEN" = Some (BOT_TOKEN cfg) /\ BOT_TOKEN cfg <> "" /\
  environ !! "GROUP_INVITE_LINK" = Some (GROUP_INVITE_LINK cfg) /\
  GROUP_INVITE_LINK cfg <> "" /\
  environ !! "GOOGLE_SHEET_ID" = Some (GOOGLE_SHEET_ID cfg) /\
  GOOGLE_SHEET_ID cfg <> "" /\
  file = match environ !! "GOOGLE_CREDENTIALS_FILE" with
         | Some f => f
         | None => "credentials.json"
         end.
Proof.
  unfold load_config, getenv, getenv_or. destruct cfg as [tok link sid]. simpl.
  destruct (environ !! "TELEGRAM_BOT_TOKEN") as [[|a x]|];
    destruct (environ !! "GROUP_INVITE_LINK") as [[|b y]|];
    destruct (environ !! "GOOGLE_SHEET_ID") as [[|c z]|]; simpl;
    (split; [intros [=]; subst; repeat split; auto; discriminate
            | intros (H1 & H1' & H2 & H2' & H3 & H3' & ->);
              try discriminate; try congruence]).
Qed.

(** X13. The module fails to load, with the one fixed message, as soon
    as one of the three required variables is missing or empty, whatever
    the others hold. *)
Theorem load_config_fails
    (environ : gmap string string) (key : string) :
  key = "TELEGRAM_BOT_TOKEN" \/ key = "GROUP_INVITE_LINK" \/ key = "GOOGLE_SHEET_ID" ->
  environ !! key = None \/ environ !! key = Some "" ->
  load_config environ = inl config_error.
Proof.
  unfold load_config, getenv.
  intros [-> | [-> | ->]] [-> | ->]; simpl; rewrite ?orb_true_r; reflexivity.
Qed.

(** X13, witness: the invite link set to the empty text. *)
Lemma load_config_fails_witness :
  let environ : gmap string string :=
    <["TELEGRAM_BOT_TOKEN" := "token"]>
      (<["GROUP_INVITE_LINK" := ""]> (<["GOOGLE_SHEET_ID" := "id"]> ∅)) in
  ("GROUP_INVITE_LINK" = "TELEGRAM_BOT_TOKEN" \/
   "GROUP_INVITE_LINK" = "GROUP_INVITE_LINK" \/
   "GROUP_INVITE_LINK" = "GOOGLE_SHEET_ID") /\
  (environ !! "GROUP_INVITE_LINK" = None \/ environ !! "GROUP_INVITE_LINK" = Some "") /\
  load_config environ = inl config_error.
Proof.
  intros environ.
  assert (H1 : "GROUP_INVITE_LINK" = "TELEGRAM_BOT_TOKEN" \/
               "GROUP_INVITE_LINK" = "GROUP_INVITE_LINK" \/
               "GROUP_INVITE_LINK" = "GOOGLE_SHEET_ID") by (right; left; reflexivity).
  assert (H2 : environ !! "GROUP_INVITE_LINK" = None \/
               environ !! "GROUP_INVITE_LINK" = Some "") by (right; reflexivity).
  split; [exact H1|]. split; [exact H2|].
  exact (load_config_fails environ "GROUP_INVITE_LINK" H1 H2).
Defined.


(** X14. What a conversation holds between two updates: nothing outside
    a conversation and while the name is awaited, and the name alone, a
    text, while the address is awaited. The address is never kept: it is
    stored and cleared within the one step that saves it. *)
Theorem collected_in_every_state
    (cfg : config) (sh : worksheet) (tr : list (store_env * update)) :
  collected (run cfg tr (initial sh)).
Proof. apply run_collected. Qed.

(** X15. Whatever the updates and the outcomes of the store calls, a
    conversation only adds rows under those of the sheet it found, and
    every row it adds is the header or a registration: name, address,
    user id and timestamp, with an address the validator accepted. *)
Theorem conversation_writes_validated_rows
    (cfg : config) (sh : worksheet) (tr : list (store_env * update)) :
  exists ws,
    sheet (data (run cfg tr (initial sh))) = sh ++ ws /\
    Forall (fun r => r = headers \/ registration_row r) ws.
Proof.
  induction tr as [|[env u] tr IH] using rev_ind.
  - exists []. simpl. rewrite app_nil_r. auto.
  - rewrite run_snoc. destruct IH as (ws & Hws & Hall).
    destruct (handle_update_rows cfg env u (run cfg tr (initial sh)))
      as (ws' & Hws' & Hall'); [apply run_collected|].
    exists (ws ++ ws'). rewrite Hws', Hws, app_assoc. split; [reflexivity|].
    apply Forall_app. auto.
Qed.

(** X16. The replies of a conversation only grow, by at most one reply
    for each update. *)
Theorem at_most_one_reply_per_update
    (cfg : config) (tr : list (store_env * update)) (c : conversation) :
  exists rs,
    sent (data (run cfg tr c)) = sent (data c) ++ rs /\
    length rs <= length tr.
Proof.
  induction tr as [|[env u] tr IH] using rev_ind.
  - exists []. simpl. rewrite app_nil_r. auto.
  - rewrite run_snoc. destruct IH as (rs & Hrs & Hlen).
    destruct (handle_update_sent cfg env u (run cfg tr c)) as (rs' & Hrs' & Hlen').
    exists (rs ++ rs'). rewrite Hrs', Hrs, app_assoc. split; [reflexivity|].
    rewrite !length_app. simpl. lia.
Qed.

(** X17. There are two ways out of a conversation and no other: the
    command [/cancel], in whatever case it is typed, and a text the
    validator accepts while the address is awaited. *)
Theorem conversation_ends_only_by_cancel_or_valid_email
    (cfg : config) (env : store_env) (u : update) (c : conversation) :
  state c <> END ->
  state (handle_update cfg env u c) = END ->
  (exists name, message u = Command name /\ lower name = "cancel") \/
  (state c = GET_EMAIL /\ exists t, message u = Text t /\ is_valid_email t = true).
Proof.
  unfold handle_update.
  destruct (state c) eqn:Hst, (message u) as [name|t|] eqn:Hmsg;
    try (simpl; intros; congruence).
  - destruct (String.eqb (lower name) "cancel") eqn:Hn; [|simpl; congruence].
    apply String.eqb_eq in Hn. eauto.
  - destruct (String.eqb (lower name) "cancel") eqn:Hn; [|simpl; congruence].
    apply String.eqb_eq in Hn. eauto.
  - intros _. unfold run_handler.
    pose proof (message_text_Text u t Hmsg) as Ht.
    destruct (is_valid_email t) eqn:Hv; [eauto|].
    rewrite get_email_invalid by now rewrite Ht. discriminate.
Qed.

(** X17, witness: [/CANCEL] while the address is awaited. *)
Lemma conversation_ends_only_by_cancel_or_valid_email_witness :
  let c := run sample_cfg [sample_update (Command "start");
                           sample_update (Text "Luca")] (initial []) in
  let u := {| effective_user := sample_user; message := Command "CANCEL" |} in
  (state c <> END /\
   state (handle_update sample_cfg (no_fault sample_time) u c) = END) /\
  ((exists name, message u = Command name /\ lower name = "cancel") \/
   (state c = GET_EMAIL /\ exists t, message u = Text t /\ is_valid_email t = true)).
Proof.
  intros c u.
  assert (H1 : state c <> END) by discriminate.
  assert (H2 : state (handle_update sample_cfg (no_fault sample_time) u c) = END)
    by reflexivity.
  split; [split; assumption|].
  exact (conversation_ends_only_by_cancel_or_valid_email sample_cfg
           (no_fault sample_time) u c H1 H2).
Defined.

(** X18. The sheet is touched by one kind of update only: a text the
    validator accepts, arriving while the address is awaited and the
    name is there. No command, no name and no rejected address ever
    changes it. *)
Theorem sheet_changes_only_on_valid_email
    (cfg : config) (env : store_env) (u : update) (c : conversation) :
  sheet (data (handle_update cfg env u c)) <> sheet (data c) ->
  state c = GET_EMAIL /\
  is_Some (user_data (data c) !! "name") /\
  exists t, message u = Text t /\ is_valid_email t = true.
Proof.
  unfold handle_update.
  destruct (state c) eqn:Hst, (message u) as [name|t|] eqn:Hmsg;
    try (simpl; intros H; now contradiction H).
  - destruct (String.eqb (lower name) "cancel"); simpl; intros H; now contradiction H.
  - destruct (String.eqb (lower name) "cancel"); simpl; intros H; now contradiction H.
  - unfold run_handler.
    pose proof (message_text_Text u t Hmsg) as Ht.
    destruct (is_valid_email t) eqn:Hv.
    + destruct (user_data (data c) !! "name") as [n|] eqn:Hn.
      * intros _. split; [reflexivity|]. split; eauto.
      * rewrite get_email_without_name by (rewrite ?Ht; assumption).
        simpl. intros H; now contradiction H.
    + rewrite get_email_invalid by now rewrite Ht.
      simpl. intros H; now contradiction H.
  - destruct (String.eqb (lower name) "start"); simpl; intros H; now contradiction H.
Qed.

(** X18, witness: a first registration on an empty sheet. *)
Lemma sheet_changes_only_on_valid_email_witness :
  let c := run sample_cfg [sample_update (Command "start");
                           sample_update (Text "Luca")] (initial []) in
  let u := {| effective_user := sample_user; message := Text "luca@example.com" |} in
  sheet (data (handle_update sample_cfg (no_fault sample_time) u c)) <> sheet (data c) /\
  state c = GET_EMAIL /\
  is_Some (user_data (data c) !! "name") /\
  exists t, message u = Text t /\ is_valid_email t = true.
Proof.
  intros c u.
  assert (H : sheet (data (handle_update sample_cfg (no_fault sample_time) u c)) <>
              sheet (data c)) by (vm_compute; discriminate).
  split; [exact H|].
  exact (sheet_changes_only_on_valid_email sample_cfg (no_fault sample_time) u c H).
Defined.

(** X20. A registration from end to end. Outside a conversation,
    [/start] in whatever case, then a name, then an address the
    validator accepts, the store calls going through: the sheet gets the
    row of name, address, user id and timestamp, after the header where
    it is due (with [gspread_5] on an empty A1; never with [gspread_6]);
    the user gets the greeting, the request for the address and the
    success message with the invite link; the conversation is over and
    holds nothing. *)
Theorem registration_completes
    (cfg : config) (c : conversation) (e1 e2 e3 : store_env)
    (u1 u2 u3 : update) (word name email : string) :
  state c = END ->
  message u1 = Command word ->
  lower word = "start" ->
  message u2 = Text name ->
  message u3 = Text email ->
  is_valid_email email = true ->
  append_succeeds e3
    (user_info_of (VStr name) (VStr email) (id (effective_user u3)))
    (sheet (data c)) ->
  run cfg [(e1, u1); (e2, u2); (e3, u3)] c =
    {| state := END;
       data :=
         {| user_data := ∅;
            sheet := sheet (data c) ++ headers_due e3 (sheet (data c)) ++
                     [[VStr name; VStr email; VInt (id (effective_user u3));
                       VStr (strftime (now e3))]];
            sent := sent (data c) ++
                    [reply_html (start_text (first_name (effective_user u1))) None;
                     reply_html ask_email_text None;
                     reply_html success_text (Some (invite_keyboard cfg))] |} |}.
Proof.
  intros Hst Hm1 Hw Hm2 Hm3 Hv Hok.
  change (run cfg [(e1, u1); (e2, u2); (e3, u3)] c)
    with (handle_update cfg e3 u3
            (handle_update cfg e2 u2 (handle_update cfg e1 u1 c))).
  assert (H1 : handle_update cfg e1 u1 c =
            {| state := GET_NAME;
               data := {| user_data := user_data (data c); sheet := sheet (data c);
                          sent := sent (data c) ++
                            [reply_html (start_text (first_name (effective_user u1)))
                               None] |} |}).
  { unfold handle_update. rewrite Hst, Hm1, Hw. reflexivity. }
  rewrite H1. clear H1.
  assert (H2 : forall w, handle_update cfg e2 u2 {| state := GET_NAME; data := w |} =
            {| state := GET_EMAIL;
               data := {| user_data := <["name" := VStr name]> (user_data w);
                          sheet := sheet w;
                          sent := sent w ++ [reply_html ask_email_text None] |} |}).
  { intros w. unfold handle_update. simpl. rewrite Hm2.
    unfold run_handler, get_name. rewrite (message_text_Text u2 name Hm2).
    reflexivity. }
  rewrite H2. clear H2.
  unfold handle_update. simpl. rewrite Hm3. unfold run_handler.
  pose proof (message_text_Text u3 email Hm3) as Ht.
  match goal with
  | |- context [get_email cfg e3 u3 ?w] =>
      destruct (get_email_valid cfg e3 u3 w (VStr name)) as (b & sh' & Hsave & ->);
        [now rewrite Ht | apply lookup_insert_eq |]
  end.
  rewrite Ht in Hsave. simpl in Hsave.
  destruct (save_cases e3 (user_info_of (VStr name) (VStr email) (id (effective_user u3)))
              (sheet (data c)))
    as [(r & _ & Hr & Hs) | (s' & Hno & _)]; [|contradiction].
  rewrite Hs in Hsave. injection Hsave as <- <-.
  rewrite record_row_user_info_of in Hr. injection Hr as <-.
  simpl. rewrite <- !app_assoc. reflexivity.
Qed.

(** X20, witness: Maria Rossi registers on an empty sheet. *)
Lemma registration_completes_witness :
  let u1 := {| effective_user := sample_user; message := Command "Start" |} in
  let u2 := {| effective_user := sample_user; message := Text "Maria Rossi" |} in
  let u3 := {| effective_user := sample_user; message := Text "maria@example.com" |} in
  let e := no_fault sample_time in
  (state (initial []) = END /\ message u1 = Command "Start" /\
   lower "Start" = "start" /\
   message u2 = Text "Maria Rossi" /\ message u3 = Text "maria@example.com" /\
   is_valid_email "maria@example.com" = true /\
   append_succeeds e
     (user_info_of (VStr "Maria Rossi") (VStr "maria@example.com")
        (id (effective_user u3)))
     (sheet (data (initial [])))) /\
  run sample_cfg [(e, u1); (e, u2); (e, u3)] (initial []) =
    {| state := END;
       data :=
         {| user_data := ∅;
            sheet := [[VStr "Maria Rossi"; VStr "maria@example.com"; VInt 42;
                       VStr "2024-03-09 07:05:00"]];
            sent := [reply_html (start_text "Luca") None;
                     reply_html ask_email_text None;
                     reply_html success_text (Some (invite_keyboard sample_cfg))] |} |}.
Proof.
  intros u1 u2 u3 e.
  assert (H1 : state (initial []) = END) by reflexivity.
  assert (H2 : message u1 = Command "Start") by reflexivity.
  assert (Hw : lower "Start" = "start") by reflexivity.
  assert (H3 : message u2 = Text "Maria Rossi") by reflexivity.
  assert (H4 : message u3 = Text "maria@example.com") by reflexivity.
  assert (H5 : is_valid_email "maria@example.com" = true) by reflexivity.
  assert (H6 : append_succeeds e
            (user_info_of (VStr "Maria Rossi") (VStr "maria@example.com")
               (id (effective_user u3)))
            (sheet (data (initial [])))).
  { split; [repeat split; reflexivity|]. split; [reflexivity|].
    split; [eexists; reflexivity | reflexivity]. }
  split; [exact (conj H1 (conj H2 (conj Hw (conj H3 (conj H4 (conj H5 H6))))))|].
  exact (registration_completes sample_cfg (initial []) e e e u1 u2 u3
           "Start" "Maria Rossi" "maria@example.com" H1 H2 Hw H3 H4 H5 H6).
Defined.

(** X21. Without the name the email handler is stuck: when
    [user_data] has no ["name"] while the address is awaited, every
    address the validator accepts makes the handler raise [KeyError]
    before it saves or answers, so the conversation stays where it is,
    nothing is written and nothing is sent, however many are tried. *)
Theorem valid_email_without_name_is_stuck
    (cfg : config) (tr : list (store_env * update)) (c : conversation) :
  state c = GET_EMAIL ->
  user_data (data c) !! "name" = None ->
  Forall (fun eu => exists t, message (snd eu) = Text t /\ is_valid_email t = true) tr ->
  state (run cfg tr c) = GET_EMAIL /\
  user_data (data (run cfg tr c)) !! "name" = None /\
  sheet (data (run cfg tr c)) = sheet (data c) /\
  sent (data (run cfg tr c)) = sent (data c).
Proof.
  revert c. induction tr as [|[env u] tr IH]; intros c Hst Hname Hall.
  - simpl. auto.
  - apply Forall_cons in Hall as [(t & Hmsg & Hv) Hall]. simpl in Hmsg.
    change (run cfg ((env, u) :: tr) c)
      with (run cfg tr (handle_update cfg env u c)).
    pose proof (message_text_Text u t Hmsg) as Ht.
    assert (Hstep : handle_update cfg env u c =
              {| state := GET_EMAIL;
                 data := {| user_data := <["email" := VStr t]> (user_data (data c));
                            sheet := sheet (data c); sent := sent (data c) |} |}).
    { unfold handle_update. rewrite Hst, Hmsg. unfold run_handler.
      rewrite get_email_without_name by (rewrite ?Ht; assumption).
      now rewrite Ht, Hst. }
    rewrite Hstep.
    match goal with
    | |- context [run cfg tr ?c1] =>
        destruct (IH c1) as (A & B & C & D);
          [reflexivity
          | simpl; now rewrite lookup_insert_ne by discriminate
          | assumption
          | auto]
    end.
Qed.

(** X21, witness: a conversation put in [GET_EMAIL] with nothing
    collected. *)
Lemma valid_email_without_name_is_stuck_witness :
  let c := {| state := GET_EMAIL;
              data := {| user_data := ∅; sheet := []; sent := [] |} |} in
  let tr := [sample_update (Text "luca@example.com")] in
  (state c = GET_EMAIL /\ user_data (data c) !! "name" = None /\
   Forall (fun eu => exists t, message (snd eu) = Text t /\ is_valid_email t = true) tr) /\
  state (run sample_cfg tr c) = GET_EMAIL /\
  user_data (data (run sample_cfg tr c)) !! "name" = None /\
  sheet (data (run sample_cfg tr c)) = sheet (data c) /\
  sent (data (run sample_cfg tr c)) = sent (data c).
Proof.
  intros c tr.
  assert (H1 : state c = GET_EMAIL) by reflexivity.
  assert (H2 : user_data (data c) !! "name" = None) by reflexivity.
  assert (H3 : Forall (fun eu => exists t, message (snd eu) = Text t /\
                                           is_valid_email t = true) tr).
  { repeat constructor. eexists. split; reflexivity. }
  split; [exact (conj H1 (conj H2 H3))|].
  exact (valid_email_without_name_is_stuck sample_cfg tr c H1 H2 H3).
Defined.

(** ** The order of the timestamps *)

Section TimestampOrder.

Lemma ascii_compare_digit (a b : N) :
  Ascii.compare (digit_char a) (digit_char b) = (a mod 10 ?= b mod 10)%N.
Proof.
  unfold Ascii.compare, digit_char.
  assert (Ha : (a mod 10 < 10)%N) by (apply N.mod_lt; discriminate).
  assert (Hb : (b mod 10 < 10)%N) by (apply N.mod_lt; discriminate).
  rewrite !N_ascii_embedding by lia.
  destruct (N.compare_spec (48 + a mod 10) (48 + b mod 10)),
    (N.compare_spec (a mod 10) (b mod 10)); try reflexivity; lia.
Qed.

(** Comparing two numbers is comparing their tens, then their units. *)
Lemma N_compare_digits (a b : N) :
  (a ?= b)%N = lex (a / 10 ?= b / 10)%N (a mod 10 ?= b mod 10)%N.
Proof.
  pose proof (N.div_mod a 10 ltac:(discriminate)) as Ha.
  pose proof (N.div_mod b 10 ltac:(discriminate)) as Hb.
  pose proof (N.mod_lt a 10 ltac:(discriminate)) as Ha'.
  pose proof (N.mod_lt b 10 ltac:(discriminate)) as Hb'.
  unfold lex.
  set (qa := (a / 10)%N) in *. set (ra := (a mod 10)%N) in *.
  set (qb := (b / 10)%N) in *. set (rb := (b mod 10)%N) in *.
  clearbody qa ra qb rb.
  destruct (N.compare_spec qa qb) as [H | H | H];
    destruct (N.compare_spec ra rb) as [H' | H' | H'];
    destruct (N.compare_spec a b) as [H'' | H'' | H'']; try reflexivity; lia.
Qed.

Lemma lex_assoc c1 c2 c3 : lex (lex c1 c2) c3 = lex c1 (lex c2 c3).
Proof. destruct c1; reflexivity. Qed.

Lemma compare_digit_cons (a b : N) (l1 l2 : list ascii) :
  String.compare (string_of_list_ascii (digit_char a :: l1))
                 (string_of_list_ascii (digit_char b :: l2)) =
  lex (a mod 10 ?= b mod 10)%N
      (String.compare (string_of_list_ascii l1) (string_of_list_ascii l2)).
Proof.
  cbn [string_of_list_ascii String.compare]. rewrite ascii_compare_digit.
  unfold lex. destruct (a mod 10 ?= b mod 10)%N; reflexivity.
Qed.

Lemma compare_same_cons (c : ascii) (l1 l2 : list ascii) :
  String.compare (string_of_list_ascii (c :: l1)) (string_of_list_ascii (c :: l2)) =
  String.compare (string_of_list_ascii l1) (string_of_list_ascii l2).
Proof.
  cbn [string_of_list_ascii String.compare].
  unfold Ascii.compare. now rewrite N.compare_refl.
Qed.

Lemma compare_pad2 (a b : N) (l1 l2 : list ascii) :
  (a <= 99)%N -> (b <= 99)%N ->
  String.compare (string_of_list_ascii (zero_pad 2 a ++ l1))
                 (string_of_list_ascii (zero_pad 2 b ++ l2)) =
  lex (a ?= b)%N
      (String.compare (string_of_list_ascii l1) (string_of_list_ascii l2)).
Proof.
  intros Ha Hb. cbn [zero_pad app]. rewrite !compare_digit_cons.
  assert (Ha1 : (a / 10 < 10)%N) by (apply N.Div0.div_lt_upper_bound; lia).
  assert (Hb1 : (b / 10 < 10)%N) by (apply N.Div0.div_lt_upper_bound; lia).
  rewrite (N.mod_small (a / 10)), (N.mod_small (b / 10)) by assumption.
  now rewrite (N_compare_digits a b), lex_assoc.
Qed.

Lemma compare_pad4 (a b : N) (l1 l2 : list ascii) :
  (a <= 9999)%N -> (b <= 9999)%N ->
  String.compare (string_of_list_ascii (zero_pad 4 a ++ l1))
                 (string_of_list_ascii (zero_pad 4 b ++ l2)) =
  lex (a ?= b)%N
      (String.compare (string_of_list_ascii l1) (string_of_list_ascii l2)).
Proof.
  intros Ha Hb. cbn [zero_pad app]. rewrite !compare_digit_cons.
  assert (Ha1 : (a / 10 < 1000)%N) by (apply N.Div0.div_lt_upper_bound; lia).
  assert (Ha2 : (a / 10 / 10 < 100)%N) by (apply N.Div0.div_lt_upper_bound; lia).
  assert (Ha3 : (a / 10 / 10 / 10 < 10)%N) by (apply N.Div0.div_lt_upper_bound; lia).
  assert (Hb1 : (b / 10 < 1000)%N) by (apply N.Div0.div_lt_upper_bound; lia).
  assert (Hb2 : (b / 10 / 10 < 100)%N) by (apply N.Div0.div_lt_upper_bound; lia).
  assert (Hb3 : (b / 10 / 10 / 10 < 10)%N) by (apply N.Div0.div_lt_upper_bound; lia).
  rewrite (N.mod_small (a / 10 / 10 / 10)), (N.mod_small (b / 10 / 10 / 10))
    by assumption.
  rewrite (N_compare_digits a b), (N_compare_digits (a / 10) (b / 10)),
    (N_compare_digits (a / 10 / 10) (b / 10 / 10)).
  now rewrite !lex_assoc.
Qed.

End TimestampOrder.

(** X22. From the year 1000 on, timestamps sort as the times they stand
    for: comparing two timestamps as texts, character by character,
    gives the order of the two clock readings. *)
Theorem strftime_keeps_order (d1 d2 : datetime) :
  valid_datetime d1 -> valid_datetime d2 ->
  (1000 <= year d1)%N -> (1000 <= year d2)%N ->
  String.compare (strftime d1) (strftime d2) = datetime_compare d1 d2.
Proof.
  intros (Hy1 & Hm1 & Hd1 & Hh1 & Hn1 & Hs1) (Hy2 & Hm2 & Hd2 & Hh2 & Hn2 & Hs2)
    Hk1 Hk2.
  unfold strftime, datetime_compare.
  rewrite !year_digits_four by assumption. unfold after_year.
  rewrite <- (app_nil_r (zero_pad 2 (second d1))), <- (app_nil_r (zero_pad 2 (second d2))).
  rewrite compare_pad4 by lia. cbn [app]. rewrite compare_same_cons.
  rewrite compare_pad2 by lia. rewrite compare_same_cons.
  rewrite compare_pad2 by lia. rewrite compare_same_cons.
  rewrite compare_pad2 by lia. rewrite compare_same_cons.
  rewrite compare_pad2 by lia. rewrite compare_same_cons.
  rewrite compare_pad2 by lia.
  cbn [string_of_list_ascii String.compare].
  destruct (second d1 ?= second d2)%N; reflexivity.
Qed.

(** X22, witness: the sample time and the next second. *)
Lemma strftime_keeps_order_witness :
  let later := {| year := 2024; month := 3; day := 9;
                  hour := 7; minute := 5; second := 1 |} in
  (valid_datetime sample_time /\ valid_datetime later /\
   (1000 <= year sample_time)%N /\ (1000 <= year later)%N) /\
  String.compare (strftime sample_time) (strftime later) =
    datetime_compare sample_time later.
Proof.
  intros later.
  assert (H1 : valid_datetime sample_time) by (unfold valid_datetime; simpl; lia).
  assert (H2 : valid_datetime later) by (unfold valid_datetime; simpl; lia).
  assert (H3 : (1000 <= year sample_time)%N) by (simpl; lia).
  assert (H4 : (1000 <= year later)%N) by (simpl; lia).
  split; [exact (conj H1 (conj H2 (conj H3 H4)))|].
  exact (strftime_keeps_order sample_time later H1 H2 H3 H4).
Defined.
